(** * pipolars: extraction layer over the PI AF SDK

    A shallow embedding of the parts of [pipolars] that convert vendor SDK
    results into [PIValue] / [PointConfig] records
    ([src/pipolars/extraction/points.py]), of the batch extraction loops of
    [examples/extract_analyses.py] and [examples/extract_pipoints.py], and of
    the record types of [pipolars.core.types] / [pipolars.api.client] whose
    sources are not part of the tree (modelled from the spec, marked so).

    Python values are the dynamically typed [PyVal]; exceptions are [PyExc];
    fallible code returns [Result A = PyExc + A] (left = raised).  Objects of
    the vendor SDK (AFValue, PIPoint, PISystem, ...) are records whose fields
    are their observable attributes and methods; the SDK's own behaviour is a
    hypothesis of the theorems that depend on it. *)

From Stdlib Require Import String List ZArith QArith Bool Ascii Lia.
From Stdlib Require Import DecimalString DecimalZ Sorting.Sorted.
Import ListNotations.
Open Scope list_scope.
Open Scope string_scope.
Set Warnings "-register-all".

(** ** Python exceptions and the error monad *)

Inductive PyExc : Type :=
| ValueError
| TypeError
| AttributeError
| FrozenInstanceError   (* dataclasses.FrozenInstanceError <: AttributeError *)
| KeyError
| SdkError (msg : string).  (* any exception raised by the vendor SDK *)

(** Python's [isinstance(e, AttributeError)]. *)
Definition is_attribute_error (e : PyExc) : bool :=
  match e with
  | AttributeError | FrozenInstanceError => true
  | _ => false
  end.

Definition Result (A : Type) : Type := (PyExc + A)%type.

Definition ret {A} (a : A) : Result A := inr a.
Definition raise {A} (e : PyExc) : Result A := inl e.
Definition bind {A B} (r : Result A) (k : A -> Result B) : Result B :=
  match r with
  | inl e => inl e
  | inr a => k a
  end.

Notation "'let!' x := c 'in' k" := (bind c (fun x => k))
  (at level 200, x name, c at level 100, k at level 200).

(** [[f(x) for x in xs]]: left to right, the first exception aborts. *)
Fixpoint map_result {A B} (f : A -> Result B) (xs : list A) : Result (list B) :=
  match xs with
  | [] => ret []
  | x :: xs' =>
      let! y := f x in
      let! ys := map_result f xs' in
      ret (y :: ys)
  end.

(** ** Python values *)

(** A .NET object seen through pythonnet (one the bridge does not turn into a
    Python native): its [Name] attribute if it has one, what [ToString()]
    returns, and what Python's [float(obj)] and [int(obj)] do on it. *)
Record NetObj : Type := mkNet {
  net_Name : option string;
  net_ToString : string;
  net_float : Result Q;
  net_int : Result Z
}.

Inductive PointType : Type :=
| FLOAT16 | FLOAT32 | FLOAT64 | INT16 | INT32
| DIGITAL | TIMESTAMP | STRING | BLOB.

Inductive AnalysisStatus : Type := RUNNING | STOPPED | ERROR | UNKNOWN.

(** Members of the enums of [pipolars.core.types] that are stored in records. *)
Inductive PyEnum : Type :=
| EPointType (t : PointType)
| EAnalysisStatus (s : AnalysisStatus).

Inductive PyVal : Type :=
| PNone
| PBool (b : bool)
| PInt (z : Z)
| PFloat (q : Q)
| PStr (s : string)
| PTuple (xs : list PyVal)
| PEnum (e : PyEnum)
| PNet (o : NetObj).

(** [hasattr(v, "Name")] and the attribute. *)
Definition py_Name (v : PyVal) : option string :=
  match v with
  | PNet o => net_Name o
  | _ => None
  end.

(** [hasattr(v, "ToString")]: only .NET objects have it. *)
Definition py_has_ToString (v : PyVal) : bool :=
  match v with
  | PNet _ => true
  | _ => false
  end.

(** Python truthiness [bool(v)]. *)
Definition py_truthy (v : PyVal) : bool :=
  match v with
  | PNone => false
  | PBool b => b
  | PInt z => negb (Z.eqb z 0)
  | PFloat q => negb (Qeq_bool q 0)
  | PStr s => negb (String.eqb s "")
  | PTuple xs => match xs with [] => false | _ => true end
  | PEnum _ => true
  | PNet _ => true
  end.

(** The parts of Python's [str], [int] and [float] builtins on strings and
    floats that the code never relies on: number parsing and float [repr]. *)
Class PyBuiltins : Type := {
  float_of_str : string -> Result Q;
  int_of_str : string -> Result Z;
  repr_float : Q -> string
}.

Section Builtins.
Context `{PyBuiltins}.

Definition str_of_Z (z : Z) : string := NilZero.string_of_int (Z.to_int z).

Definition enum_str (e : PyEnum) : string :=
  match e with
  | EPointType t =>
      "PointType." ++
      match t with
      | FLOAT16 => "FLOAT16" | FLOAT32 => "FLOAT32" | FLOAT64 => "FLOAT64"
      | INT16 => "INT16" | INT32 => "INT32" | DIGITAL => "DIGITAL"
      | TIMESTAMP => "TIMESTAMP" | STRING => "STRING" | BLOB => "BLOB"
      end
  | EAnalysisStatus s =>
      match s with
      | RUNNING => "Running" | STOPPED => "Stopped"
      | ERROR => "Error" | UNKNOWN => "Unknown"
      end
  end.

(** [str(v)]; for a .NET object pythonnet calls [ToString()]. *)
Definition py_str (v : PyVal) : string :=
  match v with
  | PNone => "None"
  | PBool true => "True"
  | PBool false => "False"
  | PInt z => str_of_Z z
  | PFloat q => repr_float q
  | PStr s => s
  | PTuple _ => "(...)"
  | PEnum e => enum_str e
  | PNet o => net_ToString o
  end.

(** [float(v)]. *)
Definition py_float (v : PyVal) : Result Q :=
  match v with
  | PNone => raise TypeError
  | PBool b => ret (if b then 1 else 0)
  | PInt z => ret (inject_Z z)
  | PFloat q => ret q
  | PStr s => float_of_str s
  | PTuple _ | PEnum _ => raise TypeError
  | PNet o => net_float o
  end.

(** [int(v)]; on a float it truncates toward zero. *)
Definition py_int (v : PyVal) : Result Z :=
  match v with
  | PNone => raise TypeError
  | PBool b => ret (if b then 1 else 0)%Z
  | PInt z => ret z
  | PFloat q => ret (Z.quot (Qnum q) (Zpos (Qden q)))
  | PStr s => int_of_str s
  | PTuple _ | PEnum _ => raise TypeError
  | PNet o => net_int o
  end.

End Builtins.

(** Builtins used to evaluate the examples: decimal integer literals only. *)
#[local] Instance decimal_builtins : PyBuiltins := {
  float_of_str s :=
    match NilZero.int_of_string s with
    | Some d => inr (inject_Z (Z.of_int d))
    | None => inl ValueError
    end;
  int_of_str s :=
    match NilZero.int_of_string s with
    | Some d => inr (Z.of_int d)
    | None => inl ValueError
    end;
  repr_float q := str_of_Z (Qnum q) ++ "/" ++ str_of_Z (Zpos (Qden q))
}.

(** ** Values: [AFValue] and [PIValue] *)

(** [AFTime]: the code only reads its [LocalTime] (ticks). *)
Record AFTime : Type := mkAFTime { LocalTime : Z }.

(** [AFValue] as the extractor reads it; [Substituted] is [None] when the
    object has no such attribute. *)
Record AFValue : Type := mkAFValue {
  Timestamp : AFTime;
  Value : PyVal;
  IsGood : PyVal;
  Substituted : option PyVal
}.

Inductive DataQuality : Type := GOOD | BAD | SUBSTITUTED.

Record PIValue : Type := mkPIValue {
  timestamp : Z;
  value : PyVal;
  quality : DataQuality
}.

(** The "Get quality" block of [_convert_value] (points.py 148-153). *)
Definition _convert_quality (af_value : AFValue) : DataQuality :=
  match IsGood af_value with
  | PBool false => BAD
  | _ =>
      (* hasattr(af_value, "Substituted") and af_value.Substituted *)
      match Substituted af_value with
      | Some s => if py_truthy s then SUBSTITUTED else GOOD
      | None => GOOD
      end
  end.

(** [PIPointExtractor._convert_value] (points.py 124-159). *)
Definition _convert_value (af_value : AFValue) : Result PIValue :=
  let timestamp := LocalTime (Timestamp af_value) in
  let v := Value af_value in
  let! value :=
    match py_Name v with
    | Some name => ret (PStr name)                    (* digital state *)
    | None =>
        if py_has_ToString v then
          match v with
          | PNet o =>
              match net_float o with
              | inr q => ret (PFloat q)
              | inl ValueError | inl TypeError => ret (PStr (net_ToString o))
              | inl e => raise e
              end
          | _ => ret v
          end
        else ret v
    end in
  let quality := _convert_quality af_value in
  ret (mkPIValue timestamp value quality).

(** ** Dataclasses

    A generic model of a Python [@dataclass]: the declared fields in order,
    each with its default ([None] = required), and the [frozen] flag.  An
    instance is its field dictionary. *)

Fixpoint dict_lookup {A} (k : string) (d : list (string * A)) : option A :=
  match d with
  | [] => None
  | (k', v) :: d' => if String.eqb k k' then Some v else dict_lookup k d'
  end.

(** [d[k] = v]: an existing key keeps its place, a new key goes last. *)
Fixpoint dict_set {A} (k : string) (v : A) (d : list (string * A))
  : list (string * A) :=
  match d with
  | [] => [(k, v)]
  | (k', v') :: d' =>
      if String.eqb k k' then (k, v) :: d' else (k', v') :: dict_set k v d'
  end.

(** [d.get(k, default)]. *)
Definition dict_get {A} (d : list (string * A)) (k : string) (default : A) : A :=
  match dict_lookup k d with
  | Some v => v
  | None => default
  end.

Record DataclassDecl : Type := mkDataclass {
  dc_fields : list (string * option PyVal);
  dc_frozen : bool
}.

Definition Obj : Type := list (string * PyVal).

(** The generated [__init__] called with keyword arguments: an unknown
    keyword or a missing required field raises [TypeError]. *)
Definition dc_init (decl : DataclassDecl) (kwargs : list (string * PyVal))
  : Result Obj :=
  if existsb (fun kv => match dict_lookup (fst kv) (dc_fields decl) with
                        | Some _ => false
                        | None => true
                        end) kwargs
  then raise TypeError
  else map_result
         (fun fd =>
            match dict_lookup (fst fd) kwargs with
            | Some v => ret (fst fd, v)
            | None =>
                match snd fd with
                | Some dv => ret (fst fd, dv)
                | None => raise TypeError
                end
            end)
         (dc_fields decl).

(** [obj.f]. *)
Definition dc_getattr (o : Obj) (f : string) : Result PyVal :=
  match dict_lookup f o with
  | Some v => ret v
  | None => raise AttributeError
  end.

(** [obj.f = v]: the generated [__setattr__] of a frozen dataclass raises
    [FrozenInstanceError] for every name. *)
Definition dc_setattr (decl : DataclassDecl) (o : Obj) (f : string) (v : PyVal)
  : Result Obj :=
  if dc_frozen decl then raise FrozenInstanceError else ret (dict_set f v o).

(** The statement [obj.f = v] on an object [o]: the object afterwards and
    the exception raised, if any (a failed assignment leaves it as it was). *)
Definition run_setattr (decl : DataclassDecl) (o : Obj) (f : string) (v : PyVal)
  : Obj * option PyExc :=
  match dc_setattr decl o f v with
  | inl e => (o, Some e)
  | inr o' => (o', None)
  end.

(** Modelled from the spec: [pipolars.core.types.PointConfig] (its source is
    not in the tree).  Required: name, point_id, point_type; "all optional
    fields default to None (unset) or empty string"; the optional fields are
    the ones the spec lists and the unit tests construct. *)
Definition PointConfig : DataclassDecl := {|
  dc_fields := [
    ("name", None); ("point_id", None); ("point_type", None);
    ("description", Some (PStr "")); ("engineering_units", Some (PStr ""));
    ("zero", Some PNone); ("span", Some PNone);
    ("display_digits", Some PNone); ("typical_value", Some PNone);
    ("value_high_alarm", Some PNone); ("value_low_alarm", Some PNone);
    ("value_high_warning", Some PNone); ("value_low_warning", Some PNone);
    ("roc_high_value", Some PNone); ("roc_low_value", Some PNone);
    ("interface_id", Some PNone); ("interface_name", Some (PStr ""));
    ("scan_time", Some (PStr ""));
    ("source_point_id", Some PNone); ("source_point_name", Some (PStr ""));
    ("conversion_factor", Some PNone);
    ("device_name", Some (PStr "")); ("alias", Some (PStr ""))];
  dc_frozen := false |}.

(** Modelled from the spec: [pipolars.core.types.AnalysisInfo] (its source is
    not in the tree), an immutable ([frozen=True]) dataclass; scalar fields
    default to empty string / [None], status to UNKNOWN, the enabled flag to
    False, collections to the empty tuple (fields and defaults as in
    [tests/unit/test_types.py]). *)
Definition AnalysisInfo : DataclassDecl := {|
  dc_fields := [
    ("name", None); ("id", None); ("path", None);
    ("description", Some (PStr ""));
    ("target_id", Some (PStr "")); ("target_name", Some (PStr ""));
    ("target_path", Some (PStr ""));
    ("template_id", Some (PStr "")); ("template_name", Some (PStr ""));
    ("template_description", Some (PStr ""));
    ("status", Some (PEnum (EAnalysisStatus UNKNOWN)));
    ("is_enabled", Some (PBool false));
    ("categories", Some (PTuple []));
    ("time_rule_plugin_id", Some (PStr ""));
    ("time_rule_config_string", Some (PStr ""));
    ("analysis_rule_max_queue_size", Some PNone);
    ("group_id", Some (PStr "")); ("priority", Some PNone);
    ("maximum_queue_time", Some (PStr ""));
    ("auto_created_event_frame_count", Some PNone);
    ("output_attributes", Some (PTuple []))];
  dc_frozen := true |}.

Definition dc_field_names (decl : DataclassDecl) : list string :=
  map fst (dc_fields decl).

(** ** The vendor SDK objects the extractor talks to *)

Record AFTimeRange : Type := mkAFTimeRange { StartTime : Z; EndTime : Z }.

Inductive AFBoundaryType : Type := Inside | Outside | Interpolated.
Inductive AFCalculationBasis : Type := TimeWeighted | EventWeighted.
Inductive AFTimestampCalculation : Type := Auto | EarliestTime | MostRecentTime.
Inductive PIPageType : Type := EventCount | TagCount.

Record PIPagingConfiguration : Type := mkPaging {
  PageType : PIPageType;
  PageSize : Z
}.

(** The .NET enumerator that Python's [for] obtains from the enumerable the
    SDK returns for a paged query.  Each [MoveNext] either raises, reports the
    end, or hands out the next element together with the enumerator
    positioned after it; the SDK fetches its pages behind this interface, so
    the enumeration may be arbitrarily long (even endless). *)
CoInductive AFEnumerator : Type :=
| mkEnum (move_next : Result (option (AFValue * AFEnumerator))).

Definition MoveNext (en : AFEnumerator) : Result (option (AFValue * AFEnumerator)) :=
  match en with mkEnum m => m end.

(** The enumerator over a list of events. *)
CoFixpoint enum_of_list (vs : list AFValue) : AFEnumerator :=
  mkEnum (match vs with
          | [] => inr None
          | v :: rest => inr (Some (v, enum_of_list rest))
          end).

(** One element of the result of [PIPoint.Summary]: [int(summary.SummaryType)]
    and [summary.Value.Value]. *)
Record SummaryEntry : Type := mkSummaryEntry {
  SummaryTypeOf : Z;
  SummaryValue : PyVal
}.

(** A [PIPoint] handle: the methods the extractor calls.  [RecordedValues] is
    the call of [recorded_values] (fifth argument [maxCount]),
    [RecordedValuesPaged] the call of [recorded_values_iterator] (fifth
    argument a paging configuration), whose result is enumerated lazily. *)
Record PIPoint : Type := mkPIPoint {
  RecordedValues :
    AFTimeRange -> AFBoundaryType -> option string -> bool -> Z ->
    Result (list AFValue);
  RecordedValuesPaged :
    AFTimeRange -> AFBoundaryType -> option string -> bool ->
    PIPagingConfiguration -> Result AFEnumerator;
  Summary :
    AFTimeRange -> Z -> AFCalculationBasis -> AFTimestampCalculation ->
    Result (list SummaryEntry);
  GetAttributes : list string -> Result (list (string * PyVal))
}.

(** [PIPointExtractor]: its connection's [get_point] and the SDK's [AFTime]
    constructor (parsing a time expression). *)
Record PIPointExtractor : Type := mkExtractor {
  get_point : string -> Result PIPoint;
  AFTime_class : string -> Result Z
}.

(** [PITimestamp]: a [datetime] (its [isoformat()]), a pipolars [AFTime] (its
    [expression]) or a string. *)
Inductive PITimestamp : Type :=
| TDatetime (isoformat : string)
| TAFTime (expression : string)
| TStr (s : string).

(** [_parse_time]. *)
Definition _parse_time (ex : PIPointExtractor) (time : PITimestamp) : Result Z :=
  match time with
  | TDatetime iso => AFTime_class ex iso
  | TAFTime expr => AFTime_class ex expr
  | TStr s => AFTime_class ex s
  end.

(** [_create_time_range]. *)
Definition _create_time_range (ex : PIPointExtractor) (start end_ : PITimestamp)
  : Result AFTimeRange :=
  let! start_time := _parse_time ex start in
  let! end_time := _parse_time ex end_ in
  ret (mkAFTimeRange start_time end_time).

(** ** [get_point_config] (points.py 161-210) *)

Definition point_type_map : list (string * PointType) := [
  ("Float16", FLOAT16); ("Float32", FLOAT32); ("Float64", FLOAT64);
  ("Int16", INT16); ("Int32", INT32); ("Digital", DIGITAL);
  ("Timestamp", TIMESTAMP); ("String", STRING); ("Blob", BLOB)].

Definition point_attribute_names : list string :=
  ["pointid"; "pointtype"; "descriptor"; "engunits"; "zero"; "span";
   "displaydigits"; "typicalvalue"].

Section GetPointConfig.
Context `{PyBuiltins}.

Definition get_point_config (ex : PIPointExtractor) (tag_name : string)
  : Result Obj :=
  let! point := get_point ex tag_name in
  let! attrs := GetAttributes point point_attribute_names in
  let point_type_str := py_str (dict_get attrs "pointtype" (PStr "Float32")) in
  let point_type := dict_get point_type_map point_type_str FLOAT64 in
  let! point_id := py_int (dict_get attrs "pointid" (PInt 0)) in
  let description := py_str (dict_get attrs "descriptor" (PStr "")) in
  let engineering_units := py_str (dict_get attrs "engunits" (PStr "")) in
  let! zero := py_float (dict_get attrs "zero" (PFloat 0)) in
  let! span := py_float (dict_get attrs "span" (PFloat 100)) in
  let! display_digits := py_int (dict_get attrs "displaydigits" (PInt (-5))) in
  let! typical_value :=
    if py_truthy (dict_get attrs "typicalvalue" PNone)
    then let! q := py_float (dict_get attrs "typicalvalue" PNone) in
         ret (PFloat q)
    else ret PNone in
  dc_init PointConfig [
    ("name", PStr tag_name);
    ("point_id", PInt point_id);
    ("point_type", PEnum (EPointType point_type));
    ("description", PStr description);
    ("engineering_units", PStr engineering_units);
    ("zero", PFloat zero);
    ("span", PFloat span);
    ("display_digits", PInt display_digits);
    ("typical_value", typical_value)].

End GetPointConfig.

(** ** [recorded_values] and [recorded_values_iterator] (points.py 250-334) *)

(** Members of [pipolars.core.types.BoundaryType] (the keys of
    [boundary_map]). *)
Inductive BoundaryType : Type := INSIDE | OUTSIDE | INTERPOLATED.

Record RecordedValuesOptions : Type := mkOptions {
  boundary_type : BoundaryType;
  filter_expression : option string;
  include_filtered_values : bool;
  max_count : Z
}.

(** [RecordedValuesOptions()]. *)
Definition default_options : RecordedValuesOptions :=
  mkOptions INSIDE None false 0.

(** [boundary_map.get(options.boundary_type, AFBoundaryType.Inside)]: every
    member is a key. *)
Definition boundary_map (b : BoundaryType) : AFBoundaryType :=
  match b with
  | INSIDE => Inside
  | OUTSIDE => Outside
  | INTERPOLATED => Interpolated
  end.

Definition recorded_values (ex : PIPointExtractor) (tag_name : string)
    (start end_ : PITimestamp) (options : option RecordedValuesOptions)
  : Result (list PIValue) :=
  let options :=
    match options with Some o => o | None => default_options end in
  let! point := get_point ex tag_name in
  let! time_range := _create_time_range ex start end_ in
  let boundary := boundary_map (boundary_type options) in
  let! af_values :=
    RecordedValues point time_range boundary (filter_expression options)
      (include_filtered_values options) (max_count options) in
  map_result _convert_value af_values.

(** A Python generator object: not started, suspended in the [for] loop (it
    holds the SDK enumerator, positioned after the last value it yielded), or
    finished. *)
Inductive GenState : Type :=
| GenStart
| GenLoop (af_values : AFEnumerator)
| GenDone.

Record Generator : Type := mkGenerator {
  gen_ex : PIPointExtractor;
  gen_tag : string;
  gen_start : PITimestamp;
  gen_end : PITimestamp;
  gen_page_size : Z;
  gen_state : GenState
}.

Definition gen_with (g : Generator) (s : GenState) : Generator :=
  mkGenerator (gen_ex g) (gen_tag g) (gen_start g) (gen_end g)
    (gen_page_size g) s.

(** Calling [recorded_values_iterator] runs none of its body. *)
Definition recorded_values_iterator (ex : PIPointExtractor) (tag_name : string)
    (start end_ : PITimestamp) (page_size : Z) : Generator :=
  mkGenerator ex tag_name start end_ page_size GenStart.

(** The body of the generator up to its [for] loop. *)
Definition iterator_prologue (g : Generator) : Result AFEnumerator :=
  let! point := get_point (gen_ex g) (gen_tag g) in
  let! time_range := _create_time_range (gen_ex g) (gen_start g) (gen_end g) in
  let paging_config := mkPaging EventCount (gen_page_size g) in
  RecordedValuesPaged point time_range Inside None false paging_config.

(** One turn of the loop [for af_value in af_values: yield ...]: one
    [MoveNext] of the SDK enumerator, then the conversion. *)
Definition gen_loop_step (g : Generator) (en : AFEnumerator)
  : Result (option PIValue) * Generator :=
  match MoveNext en with
  | inl e => (inl e, gen_with g GenDone)
  | inr None => (inr None, gen_with g GenDone)
  | inr (Some (v, rest)) =>
      match _convert_value v with
      | inl e => (inl e, gen_with g GenDone)
      | inr x => (inr (Some x), gen_with g (GenLoop rest))
      end
  end.

(** [next(g)]: [inr (Some x)] yields [x], [inr None] is [StopIteration]; an
    exception finishes the generator. *)
Definition gen_next (g : Generator) : Result (option PIValue) * Generator :=
  match gen_state g with
  | GenDone => (inr None, g)
  | GenStart =>
      match iterator_prologue g with
      | inl e => (inl e, gen_with g GenDone)
      | inr en => gen_loop_step g en
      end
  | GenLoop en => gen_loop_step g en
  end.

(** [n] calls of [next(g)]: their outcomes and the generator after them. *)
Fixpoint gen_nexts (n : nat) (g : Generator)
  : list (Result (option PIValue)) * Generator :=
  match n with
  | O => ([], g)
  | S n' =>
      let '(r, g1) := gen_next g in
      let '(rs, g2) := gen_nexts n' g1 in
      (r :: rs, g2)
  end.

(** Drive the generator with at most [fuel] calls of [next]: the values
    yielded and the exception that ended it, [None] if [fuel] ran out. *)
Fixpoint gen_drain (fuel : nat) (g : Generator)
  : option (list PIValue * option PyExc) :=
  match fuel with
  | O => None
  | S fuel' =>
      match gen_next g with
      | (inl e, _) => Some ([], Some e)
      | (inr None, _) => Some ([], None)
      | (inr (Some x), g') =>
          match gen_drain fuel' g' with
          | Some (xs, err) => Some (x :: xs, err)
          | None => None
          end
      end
  end.

(** ** [summary] (points.py 402-465) *)

Open Scope Z_scope.

(** Modelled from the spec: [pipolars.core.types.SummaryType] (its source is
    not in the tree), the bit-flag values TOTAL=1, AVERAGE=2, MINIMUM=4,
    MAXIMUM=8, RANGE=16, STD_DEV=32, POPULATION_STD_DEV=64, COUNT=128,
    PERCENT_GOOD=8192. *)
Inductive SummaryType : Type :=
| TOTAL | AVERAGE | MINIMUM | MAXIMUM | RANGE | STD_DEV
| POPULATION_STD_DEV | COUNT | PERCENT_GOOD.

Definition SummaryType_value (st : SummaryType) : Z :=
  match st with
  | TOTAL => 1 | AVERAGE => 2 | MINIMUM => 4 | MAXIMUM => 8 | RANGE => 16
  | STD_DEV => 32 | POPULATION_STD_DEV => 64 | COUNT => 128
  | PERCENT_GOOD => 8192
  end.

(** [summary_types: SummaryType | list[SummaryType]]. *)
Inductive SummaryTypes : Type :=
| OneSummary (st : SummaryType)
| SummaryList (sts : list SummaryType).

(** [sdk_summary]: [AFSummaryTypes(v)] is the flag with integer value [v],
    [None_] is 0 and [|=] is bitwise or. *)
Definition sdk_summary_of (summary_types : SummaryTypes) : Z :=
  match summary_types with
  | SummaryList sts =>
      fold_left (fun acc st => Z.lor acc (SummaryType_value st)) sts 0
  | OneSummary st => SummaryType_value st
  end.

Definition summary_name_map : list (Z * string) := [
  (1, "total"); (2, "average"); (4, "minimum"); (8, "maximum");
  (16, "range"); (32, "std_dev"); (64, "pop_std_dev"); (128, "count");
  (8192, "percent_good")].

Fixpoint zmap_lookup {A} (k : Z) (m : list (Z * A)) : option A :=
  match m with
  | [] => None
  | (k', v) :: m' => if Z.eqb k k' then Some v else zmap_lookup k m'
  end.

(** [summary_name_map.get(v, str(v))]. *)
Definition summary_name (v : Z) : string :=
  match zmap_lookup v summary_name_map with
  | Some n => n
  | None => str_of_Z v
  end.

(** The result dictionary built by the final loop. *)
Definition summary_result (summaries : list SummaryEntry)
  : list (string * PyVal) :=
  fold_left (fun result s =>
               dict_set (summary_name (SummaryTypeOf s)) (SummaryValue s) result)
            summaries [].

Definition summary (ex : PIPointExtractor) (tag_name : string)
    (start end_ : PITimestamp) (summary_types : SummaryTypes)
  : Result (list (string * PyVal)) :=
  let! point := get_point ex tag_name in
  let! time_range := _create_time_range ex start end_ in
  let sdk_summary := sdk_summary_of summary_types in
  let! summaries := Summary point time_range sdk_summary TimeWeighted Auto in
  ret (summary_result summaries).

(** ** Batch extraction: [examples/extract_analyses.py] *)

(** An AF analyses (or databases) collection: [Count], the items its
    enumerator produces, and the exception the enumerator raises after them,
    if any. *)
Record Collection (A : Type) : Type := mkCollection {
  coll_Count : Result Z;
  coll_items : list A;
  coll_iter_error : option PyExc
}.
Arguments mkCollection {A}.
Arguments coll_Count {A}.
Arguments coll_items {A}.
Arguments coll_iter_error {A}.

Record AFAnalysis : Type := mkAFAnalysis { analysis_obj : PyVal }.

Record AFDatabase : Type := mkAFDatabase {
  db_Name : Result string;
  db_Analyses : Result (Collection AFAnalysis)
}.

Record PISystem : Type := mkPISystem {
  ps_Connect : Result unit;
  ps_Name : string;
  ps_Databases : Result (Collection AFDatabase);
  ps_Disconnect : Result unit
}.

(** What the script prints. *)
Inductive LogLine : Type :=
| LogConnected (server : string)
| LogDatabaseCount (n : Z)
| LogProcessingDatabase (db : string)
| LogAnalysisCount (n : Z) (db : string)
| LogAnalysisError (e : PyExc)
| LogDatabaseError (db : string) (e : PyExc)
| LogTotal (n : nat)
| LogDisconnected
| LogDisconnectWarning (e : PyExc)
| LogPointCount (n : nat)
| LogPointError (e : PyExc)
| LogProgress (i n : nat).

(** Execution with a print log: the lines printed so far and the outcome. *)
Definition Logged (A : Type) : Type := (list LogLine * Result A)%type.

Section ExtractAnalyses.

(** [extract_analysis_info_raw(analysis, sdk, extraction_time, db_name)]:
    any behaviour, its outcome is all the batch loop depends on. *)
Variable extract_analysis_info_raw : AFAnalysis -> string -> Result Obj.

(** [for analysis in analyses_collection: try ... except Exception: print]:
    the analyses extracted, appended in order, and the lines printed. *)
Fixpoint analyses_loop (db_name : string) (items : list AFAnalysis)
  : list LogLine * list Obj :=
  match items with
  | [] => ([], [])
  | a :: rest =>
      let '(log, got) := analyses_loop db_name rest in
      match extract_analysis_info_raw a db_name with
      | inr info => (log, info :: got)
      | inl e => (LogAnalysisError e :: log, got)
      end
  end.

(** The inner [try] for one database: [(printed, extracted, raised)]. *)
Definition database_body (db_name : string) (db : AFDatabase)
  : list LogLine * list Obj * option PyExc :=
  match db_Analyses db with
  | inl e => ([], [], Some e)
  | inr coll =>
      match coll_Count coll with
      | inl e => ([], [], Some e)
      | inr count =>
          let '(log, got) := analyses_loop db_name (coll_items coll) in
          (LogAnalysisCount count db_name :: log, got, coll_iter_error coll)
      end
  end.

(** [for db in databases:] with the statement [db_name = str(db.Name)] before
    the per-database [try]; an exception raised there leaves the loop. *)
Fixpoint databases_loop (dbs : list AFDatabase) : list LogLine * Result (list Obj) :=
  match dbs with
  | [] => ([], ret [])
  | db :: rest =>
      match db_Name db with
      | inl e => ([], raise e)
      | inr db_name =>
          let '(log1, got, err) := database_body db_name db in
          let log1 :=
            LogProcessingDatabase db_name ::
            app log1 (match err with
                      | Some e => [LogDatabaseError db_name e]
                      | None => []
                      end) in
          let '(log2, r) := databases_loop rest in
          (app log1 log2, let! more := r in ret (app got more))
      end
  end.

(** The [try] block after [pi_system is None] is checked. *)
Definition all_databases_body (pi_system : PISystem) : Logged (list Obj) :=
  match ps_Connect pi_system with
  | inl e => ([], raise e)
  | inr _ =>
      match ps_Databases pi_system with
      | inl e => ([LogConnected (ps_Name pi_system)], raise e)
      | inr databases =>
          match coll_Count databases with
          | inl e => ([LogConnected (ps_Name pi_system)], raise e)
          | inr n =>
              let '(log, r) := databases_loop (coll_items databases) in
              let log := LogConnected (ps_Name pi_system) :: LogDatabaseCount n :: log in
              match r, coll_iter_error databases with
              | inl e, _ => (log, raise e)
              | inr _, Some e => (log, raise e)
              | inr all, None => (app log [LogTotal (length all)], ret all)
              end
          end
      end
  end.

(** [extract_analyses_from_all_databases(af_server)]; [lookup] is
    [sdk.initialize(); PISystems()[af_server]].  The [finally] clause catches
    its own exceptions, so the outcome is the [try] block's. *)
Definition extract_analyses_from_all_databases
    (lookup : Result (option PISystem)) : Logged (list Obj) :=
  match lookup with
  | inl e => ([], raise e)
  | inr None => ([], raise ValueError)
  | inr (Some pi_system) =>
      let '(log, r) := all_databases_body pi_system in
      let fin :=
        match ps_Disconnect pi_system with
        | inl e => [LogDisconnectWarning e]
        | inr _ => [LogDisconnected]
        end in
      (app log fin, r)
  end.

End ExtractAnalyses.

(** ** Batch extraction: [examples/extract_pipoints.py] *)

(** [str(e)]. *)
Definition exc_message (e : PyExc) : string :=
  match e with
  | ValueError => "ValueError"
  | TypeError => "TypeError"
  | AttributeError => "AttributeError"
  | FrozenInstanceError => "FrozenInstanceError"
  | KeyError => "KeyError"
  | SdkError m => m
  end.

(** A PI point object as the error handler reads it: [point.Name]
    ([AttributeError] when there is no such attribute). *)
Record PIPointObj : Type := mkPIPointObj { pt_Name : Result string }.

(** An open [PIServerConnection]: [conn.name] and [conn.search_points]. *)
Record PIServerConn : Type := mkPIServerConn {
  conn_name : string;
  search_points : string -> Z -> Result (list PIPointObj)
}.

Section ExtractPoints.

(** The [try] body for one point (lines 144-219): any behaviour. *)
Variable extract_point_body : PIPointObj -> Result Obj.

(** [str(point.Name) if hasattr(point, "Name") else "Unknown"]: [hasattr]
    answers False only on [AttributeError]. *)
Definition handler_name (point : PIPointObj) : Result string :=
  match pt_Name point with
  | inr s => ret s
  | inl e => if is_attribute_error e then ret "Unknown" else raise e
  end.

(** [for i, point in enumerate(points): try ... except Exception as e: ...]. *)
Fixpoint points_loop (i n : nat) (points : list PIPointObj)
  : list LogLine * list Obj :=
  match points with
  | [] => ([], [])
  | point :: rest =>
      let '(log, got) := points_loop (S i) n rest in
      match extract_point_body point with
      | inr point_info =>
          let progress :=
            if Nat.eqb (Nat.modulo (S i) 500) 0 then [LogProgress (S i) n] else [] in
          (app progress log, point_info :: got)
      | inl e =>
          match handler_name point with
          | inr name =>
              (LogPointError e :: log,
               [("name", PStr name); ("error", PStr (exc_message e))] :: got)
          | inl _ => (LogPointError e :: log, got)
          end
      end
  end.

(** [extract_pi_points(pi_server, pattern, max_count)]; [connect] is the
    [with PIServerConnection(config) as conn] entry, i.e. connection
    establishment. *)
Definition extract_pi_points (connect : Result PIServerConn)
    (pattern : string) (max_count : Z) : Logged (list Obj) :=
  match connect with
  | inl e => ([], raise e)
  | inr conn =>
      match search_points conn pattern max_count with
      | inl e => ([LogConnected (conn_name conn)], raise e)
      | inr points =>
          let '(log, got) := points_loop 0 (length points) points in
          (LogConnected (conn_name conn) :: LogPointCount (length points) :: log,
           ret got)
      end
  end.

End ExtractPoints.

(** ** Client configuration *)

(** Modelled from the spec: [pipolars.core.config.PIServerConfig] and
    [PIConfig] (sources not in the tree); only the host matters here, and
    [PIServerConfig()] has host "localhost". *)
Record PIServerConfig : Type := mkPIServerConfig { host : string }.
Record PIConfig : Type := mkPIConfig { server : PIServerConfig }.

Definition PIServerConfig_default : PIServerConfig := mkPIServerConfig "localhost".

(** The [server] argument of [PIClient]: a server name or a
    [PIServerConfig]; [None] (also the default) is the absent option. *)
Inductive ServerArg : Type :=
| ServerName (s : string)
| ServerConfigArg (c : PIServerConfig).

(** Python's [str.isspace] on ASCII characters. *)
Definition is_py_space (c : ascii) : bool :=
  let n := nat_of_ascii c in
  orb (andb (Nat.leb 9 n) (Nat.leb n 13))
      (andb (Nat.leb 28 n) (Nat.leb n 32)).

(** [s.strip() == ""]. *)
Definition is_blank (s : string) : bool :=
  forallb is_py_space (list_ascii_of_string s).

(** Modelled from the spec: [PIClient.__init__(server=None, config=None)]
    resolving its configuration (source [pipolars.api.client] not in the
    tree): an explicit [config] takes precedence; otherwise a blank or absent
    server name gives the default "localhost", a non-blank one is used
    verbatim, a [PIServerConfig] is used as given. *)
Definition PIClient_config (server_arg : option ServerArg) (config : option PIConfig)
  : PIConfig :=
  match config with
  | Some c => c
  | None =>
      match server_arg with
      | None => mkPIConfig PIServerConfig_default
      | Some (ServerName s) =>
          if is_blank s then mkPIConfig PIServerConfig_default
          else mkPIConfig (mkPIServerConfig s)
      | Some (ServerConfigArg sc) => mkPIConfig sc
      end
  end.

(** [PIClient()] with no arguments. *)
Definition PIClient_config_no_args : PIConfig := PIClient_config None None.

(** ** The other methods of [PIPointExtractor] (points.py 44-50, 212-248,
    336-400, 467-541) *)

(** [InterpolatedValuesOptions] (points.py 44-50); the field names
    [filter_expression] and [include_filtered_values] are taken by
    [RecordedValuesOptions]. *)
Record InterpolatedValuesOptions : Type := mkInterpolatedOptions {
  interval : string;
  ivo_filter_expression : option string;
  ivo_include_filtered_values : bool
}.

(** [InterpolatedValuesOptions()]. *)
Definition default_interpolated_options : InterpolatedValuesOptions :=
  mkInterpolatedOptions "1h" None false.

(** One element of [summaries.Values] as [summaries] reads it:
    [summary_dict.Key] and the summaries [summary_dict.Value]. *)
Record SummariesEntry : Type := mkSummariesEntry {
  IntervalKey : AFTime;
  IntervalSummaries : list SummaryEntry
}.

(** A [PIPoint] handle with all the methods the extractor calls: those of
    [PIPoint] and [CurrentValue()], [InterpolatedValues], [PlotValues] and
    [Summaries] (a time span is its tick count). *)
Record PIPointFull : Type := mkPIPointFull {
  pf_point : PIPoint;
  CurrentValue : Result AFValue;
  InterpolatedValues :
    AFTimeRange -> Z -> option string -> bool -> Result (list AFValue);
  PlotValues : AFTimeRange -> Z -> Result (list AFValue);
  Summaries :
    AFTimeRange -> Z -> Z -> AFCalculationBasis -> AFTimestampCalculation ->
    Result (list SummariesEntry)
}.

(** The extractor with the SDK classes the other methods use:
    [AFTimeSpan.Parse], and [PIPointList]: [CurrentValue()] of a list holding
    the given points, as the indexing [af_values[i]] of its result. *)
Record PIPointExtractorFull : Type := mkExtractorFull {
  get_point_full : string -> Result PIPointFull;
  AFTime_class_full : string -> Result Z;
  AFTimeSpan_Parse : string -> Result Z;
  PIPointList_CurrentValue : list PIPointFull -> Result (nat -> Result AFValue)
}.

(** The same extractor as the methods modelled above see it. *)
Definition base_extractor (ex : PIPointExtractorFull) : PIPointExtractor :=
  mkExtractor (fun tag => let! p := get_point_full ex tag in ret (pf_point p))
              (AFTime_class_full ex).

(** [snapshot]. *)
Definition snapshot (ex : PIPointExtractorFull) (tag_name : string)
  : Result PIValue :=
  let! point := get_point_full ex tag_name in
  let! af_value := CurrentValue point in
  _convert_value af_value.

(** The loop [for i, tag_name in enumerate(tag_names):
    result[tag_name] = self._convert_value(af_values[i])]. *)
Fixpoint snapshots_fill (af_values : nat -> Result AFValue) (i : nat)
    (tag_names : list string) (result : list (string * PIValue))
  : Result (list (string * PIValue)) :=
  match tag_names with
  | [] => ret result
  | tag_name :: rest =>
      let! af_value := af_values i in
      let! v := _convert_value af_value in
      snapshots_fill af_values (S i) rest (dict_set tag_name v result)
  end.

(** [snapshots]: the points are looked up and added to the list first. *)
Definition snapshots (ex : PIPointExtractorFull) (tag_names : list string)
  : Result (list (string * PIValue)) :=
  let! points := map_result (get_point_full ex) tag_names in
  let! af_values := PIPointList_CurrentValue ex points in
  snapshots_fill af_values 0 tag_names [].

(** [interpolated_values]. *)
Definition interpolated_values (ex : PIPointExtractorFull) (tag_name : string)
    (start end_ : PITimestamp) (interval : string)
    (options : option InterpolatedValuesOptions) : Result (list PIValue) :=
  let options :=
    match options with Some o => o | None => default_interpolated_options end in
  let! point := get_point_full ex tag_name in
  let! time_range := _create_time_range (base_extractor ex) start end_ in
  let! time_interval := AFTimeSpan_Parse ex interval in
  let! af_values :=
    InterpolatedValues point time_range time_interval
      (ivo_filter_expression options) (ivo_include_filtered_values options) in
  map_result _convert_value af_values.

(** [plot_values]. *)
Definition plot_values (ex : PIPointExtractorFull) (tag_name : string)
    (start end_ : PITimestamp) (intervals : Z) : Result (list PIValue) :=
  let! point := get_point_full ex tag_name in
  let! time_range := _create_time_range (base_extractor ex) start end_ in
  let! af_values := PlotValues point time_range intervals in
  map_result _convert_value af_values.

(** [_get_summary_name] (its own copy of the name map). *)
Definition _get_summary_name (summary_type_value : Z) : string :=
  match zmap_lookup summary_type_value
          [(1, "total"); (2, "average"); (4, "minimum"); (8, "maximum");
           (16, "range"); (32, "std_dev"); (64, "pop_std_dev");
           (128, "count"); (8192, "percent_good")] with
  | Some n => n
  | None => str_of_Z summary_type_value
  end.

(** The dictionary built for one interval of [summaries]. *)
Definition interval_results (summary_dict : SummariesEntry)
  : list (string * PyVal) :=
  fold_left (fun interval_results s =>
               dict_set (_get_summary_name (SummaryTypeOf s)) (SummaryValue s)
                 interval_results)
            (IntervalSummaries summary_dict)
            [("timestamp", PInt (LocalTime (IntervalKey summary_dict)))].

(** [summaries]. *)
Definition summaries (ex : PIPointExtractorFull) (tag_name : string)
    (start end_ : PITimestamp) (interval : string)
    (summary_types : SummaryTypes) : Result (list (list (string * PyVal))) :=
  let! point := get_point_full ex tag_name in
  let! time_range := _create_time_range (base_extractor ex) start end_ in
  let! time_interval := AFTimeSpan_Parse ex interval in
  let sdk_summary := sdk_summary_of summary_types in
  let! sums :=
    Summaries point time_range time_interval sdk_summary TimeWeighted Auto in
  ret (map interval_results sums).

(** ** String helpers of [examples/extract_analyses.py]

    Python's [str] operations on ASCII text. *)

Fixpoint str_prefixb (p s : string) : bool :=
  match p, s with
  | EmptyString, _ => true
  | String a p', String b s' => Ascii.eqb a b && str_prefixb p' s'
  | String _ _, EmptyString => false
  end.

(** [sub in s]. *)
Fixpoint str_contains (sub s : string) : bool :=
  str_prefixb sub s ||
  match s with
  | EmptyString => false
  | String _ s' => str_contains sub s'
  end.

Fixpoint str_drop (n : nat) (s : string) : string :=
  match n, s with
  | O, _ => s
  | S n', String _ s' => str_drop n' s'
  | S _, EmptyString => EmptyString
  end.

(** [s.split(sep)] for a non-empty [sep]: the parts between the
    non-overlapping occurrences found from the left; [cur] is the part being
    read, [fuel] bounds the steps. *)
Fixpoint split_go (fuel : nat) (sep s cur : string) : list string :=
  match fuel with
  | O => [cur ++ s]
  | S fuel' =>
      if str_prefixb sep s
      then cur :: split_go fuel' sep (str_drop (String.length sep) s) ""
      else match s with
           | EmptyString => [cur]
           | String a s' => split_go fuel' sep s' (cur ++ String a EmptyString)
           end
  end.

Definition py_split (sep s : string) : list string :=
  split_go (S (String.length s)) sep s "".

Definition ascii_lower (c : ascii) : ascii :=
  let n := nat_of_ascii c in
  if andb (Nat.leb 65 n) (Nat.leb n 90) then ascii_of_nat (n + 32)%nat else c.

(** [s.lower()]. *)
Fixpoint py_lower (s : string) : string :=
  match s with
  | EmptyString => EmptyString
  | String c s' => String (ascii_lower c) (py_lower s')
  end.

Fixpoint lstrip_char (c : ascii) (s : string) : string :=
  match s with
  | EmptyString => EmptyString
  | String a s' => if Ascii.eqb a c then lstrip_char c s' else s
  end.

Fixpoint str_rev (s : string) : string :=
  match s with
  | EmptyString => EmptyString
  | String a s' => str_rev s' ++ String a EmptyString
  end.

(** [s.strip(c)] for the one-character set [c]. *)
Definition strip_char (c : ascii) (s : string) : string :=
  str_rev (lstrip_char c (str_rev (lstrip_char c s))).

(** [extract_plant_name] (extract_analyses.py 741-754); nothing in its
    [try] raises on a [str]. *)
Definition extract_plant_name (element_path : string) : option string :=
  if String.eqb element_path "" then None
  else
    let parts := py_split "\" (strip_char "\"%char element_path) in
    if Nat.leb 4 (length parts) then Some (nth 3 parts "")
    else if Nat.leb 3 (length parts) then Some (nth 2 parts "")
    else None.

(** [determine_plant_category] (extract_analyses.py 757-776). *)
Definition determine_plant_category (element_path : string) : option Z :=
  if String.eqb element_path "" then None
  else
    let path_lower := py_lower element_path in
    if str_contains "hydro" path_lower then Some 1
    else if str_contains "thermal" path_lower || str_contains "coal" path_lower
    then Some 2
    else if str_contains "solar" path_lower || str_contains "ges" path_lower
    then Some 3
    else if str_contains "wind" path_lower || str_contains "res" path_lower
    then Some 4
    else if str_contains "gas" path_lower then Some 5
    else Some 0.

(** The event-frame template name that [extract_analysis_info_raw] (lines
    254-260; [extract_analysis_info] 523-530 is the same code) reads from
    [config_str = safe_str(ar.ConfigString)]; [None] leaves
    [info["EventFrameTemplateName"]] at [None]. *)
Definition event_frame_template_name (config_str : option string)
  : option string :=
  match config_str with
  | Some s =>
      if negb (String.eqb s "") && str_contains "EFTNAME=" s then
        let parts := py_split "EFTNAME=" s in
        if Nat.ltb 1 (length parts)
        then Some (nth 0 (py_split ";" (nth 1 parts "")) "")
        else None
      else None
  | None => None
  end.

(** ** Statements taken from the spec's words *)

(** The value normalisation rule as the spec words it: a state's name, else
    [float(v)], else [str(v)]. *)
Definition spec_normalized_value `{PyBuiltins} (v : PyVal) : PyVal :=
  match py_Name v with
  | Some n => PStr n
  | None =>
      match py_float v with
      | inr q => PFloat q
      | inl _ => PStr (py_str v)
      end
  end.

Definition flagged_bad (a : AFValue) : Prop := IsGood a = PBool false.

Definition flagged_substituted (a : AFValue) : Prop :=
  exists s, Substituted a = Some s /\ py_truthy s = true.

(** The normalisation claim about one conversion [a ~> r]. *)
Definition spec_convert_value `{PyBuiltins} (a : AFValue) (r : PIValue) : Prop :=
  value r = spec_normalized_value (Value a) /\
  (quality r = GOOD <-> ~ flagged_bad a /\ ~ flagged_substituted a) /\
  (quality r = BAD -> flagged_bad a) /\
  (quality r = SUBSTITUTED -> flagged_substituted a).

(** ** What the batch loops produce, item by item *)

Section BatchOutcomes.

Variable extract_analysis_info_raw : AFAnalysis -> string -> Result Obj.
Variable extract_point_body : PIPointObj -> Result Obj.

Definition analysis_successes (db_name : string) (items : list AFAnalysis) : list Obj :=
  flat_map (fun a => match extract_analysis_info_raw a db_name with
                     | inr info => [info]
                     | inl _ => []
                     end) items.

(** What one database contributes when its name can be read. *)
Definition db_successes (db : AFDatabase) : list Obj :=
  match db_Name db with
  | inl _ => []
  | inr db_name =>
      match db_Analyses db with
      | inl _ => []
      | inr coll =>
          match coll_Count coll with
          | inl _ => []
          | inr _ => analysis_successes db_name (coll_items coll)
          end
      end
  end.

(** What one point contributes: its record, an error marker, or nothing
    when even its name cannot be read in the handler. *)
Definition point_outcome (point : PIPointObj) : list Obj :=
  match extract_point_body point with
  | inr point_info => [point_info]
  | inl e =>
      match handler_name point with
      | inr name => [[("name", PStr name); ("error", PStr (exc_message e))]]
      | inl _ => []
      end
  end.

End BatchOutcomes.

(** ** Sample inputs and SDK contracts *)

(** An [Int32] point's value arrives from pythonnet as a Python [int]. *)
Definition af_int_value : AFValue :=
  mkAFValue (mkAFTime 0) (PInt 5) (PBool true) (Some (PBool false)).

(** A .NET value without [Name] whose [float()] raises an exception other
    than [ValueError]/[TypeError] (an overflow reported by the bridge). *)
Definition overflow_net : NetObj :=
  mkNet None "1E+400" (inl (SdkError "OverflowError")) (inl (SdkError "OverflowError")).

Definition af_overflow_value : AFValue :=
  mkAFValue (mkAFTime 2) (PNet overflow_net) (PBool true) None.

Definition af_bad_substituted : AFValue :=
  mkAFValue (mkAFTime 1) (PFloat 1) (PBool false) (Some (PBool true)).

(** A point whose [pointtype] attribute is the unknown "Float128". *)
Definition odd_type_point : PIPoint := {|
  RecordedValues := fun _ _ _ _ _ => inr [];
  RecordedValuesPaged := fun _ _ _ _ _ => inr (enum_of_list []);
  Summary := fun _ _ _ _ => inr [];
  GetAttributes := fun _ => inr [("pointid", PInt 12); ("pointtype", PStr "Float128")]
|}.

Definition odd_type_extractor : PIPointExtractor :=
  mkExtractor (fun _ => inr odd_type_point) (fun _ => inr 0).

(** The single-bit flags set in a summary mask. *)
Definition flag_bits (mask : Z) : list Z :=
  map (fun i => 2 ^ Z.of_nat i)
      (filter (fun i => Z.testbit mask (Z.of_nat i)) (seq 0 31)).

(** The SDK's [PIPoint.Summary] answers one summary per flag of the mask. *)
Definition summary_contract (p : PIPoint) : Prop :=
  forall tr mask cb tc sums,
    Summary p tr mask cb tc = inr sums ->
    forall t, In t (map SummaryTypeOf sums) <-> In t (flag_bits mask).

(** A point whose SDK answers exactly the flags of the mask. *)
Definition exact_summary_point : PIPoint := {|
  RecordedValues := fun _ _ _ _ _ => inr [];
  RecordedValuesPaged := fun _ _ _ _ _ => inr (enum_of_list []);
  Summary := fun _ mask _ _ =>
               inr (map (fun t => mkSummaryEntry t (PFloat 0)) (flag_bits mask));
  GetAttributes := fun _ => inr []
|}.

Definition exact_summary_extractor : PIPointExtractor :=
  mkExtractor (fun _ => inr exact_summary_point) (fun _ => inr 0).

(** The SDK's [PIPoint.RecordedValues] answers events in strictly ascending
    time order and at most [maxCount] of them when [maxCount > 0]. *)
Definition recorded_contract (p : PIPoint) : Prop :=
  forall tr b f incl mc vs,
    RecordedValues p tr b f incl mc = inr vs ->
    StronglySorted (fun x y : AFValue => LocalTime (Timestamp x) < LocalTime (Timestamp y)) vs /\
    (0 < mc -> Z.of_nat (length vs) <= mc).

Definition af_sample (t : Z) (v : Q) : AFValue :=
  mkAFValue (mkAFTime t) (PFloat v) (PBool true) (Some (PBool false)).

(** A point whose archive holds one event. *)
Definition one_event_point : PIPoint := {|
  RecordedValues := fun _ _ _ _ _ => inr [af_sample 10 (3 # 2)];
  RecordedValuesPaged := fun _ _ _ _ _ => inr (enum_of_list [af_sample 10 (3 # 2)]);
  Summary := fun _ _ _ _ => inr [];
  GetAttributes := fun _ => inr []
|}.

Definition one_event_extractor : PIPointExtractor :=
  mkExtractor (fun _ => inr one_event_point) (fun _ => inr 0).

(** The events converted one by one until the first conversion raises. *)
Fixpoint convert_until (vs : list AFValue) : list PIValue * option PyExc :=
  match vs with
  | [] => ([], None)
  | v :: rest =>
      match _convert_value v with
      | inl e => ([], Some e)
      | inr x => let '(xs, err) := convert_until rest in (x :: xs, err)
      end
  end.

(** The enumerator [en], advanced over the events [vs] one [MoveNext] at a
    time, reaches [en']. *)
Fixpoint enum_advances (en : AFEnumerator) (vs : list AFValue) (en' : AFEnumerator)
  : Prop :=
  match vs with
  | [] => en = en'
  | v :: rest => exists en1, MoveNext en = inr (Some (v, en1)) /\ enum_advances en1 rest en'
  end.

(** [en] hands out exactly [vs], then reports the end. *)
Definition enum_yields (en : AFEnumerator) (vs : list AFValue) : Prop :=
  exists en', enum_advances en vs en' /\ MoveNext en' = inr None.

(** The SDK's paged [RecordedValues] enumerates the same events as the
    unpaged call with [maxCount = 0], and raises what that call raises. *)
Definition paging_contract (p : PIPoint) : Prop :=
  forall tr b f incl pc,
    match RecordedValues p tr b f incl 0 with
    | inl e => RecordedValuesPaged p tr b f incl pc = inl e
    | inr vs => exists en, RecordedValuesPaged p tr b f incl pc = inr en /\ enum_yields en vs
    end.

(** Three events ten seconds apart; the SDK keeps the first [maxCount] of them
    when [maxCount] is positive. *)
Definition three_events : list AFValue :=
  [af_sample 10 (3 # 2); af_sample 20 2; af_sample 30 (5 # 2)].

Definition three_event_point : PIPoint := {|
  RecordedValues := fun _ _ _ _ mc =>
    inr (if 0 <? mc then firstn (Z.to_nat mc) three_events else three_events);
  RecordedValuesPaged := fun _ _ _ _ _ => inr (enum_of_list three_events);
  Summary := fun _ _ _ _ => inr [];
  GetAttributes := fun _ => inr []
|}.

Definition three_event_extractor : PIPointExtractor :=
  mkExtractor (fun _ => inr three_event_point) (fun _ => inr 0).

(** An endless archive: one event per second from time 0 on. *)
CoFixpoint count_from (t : Z) : AFEnumerator :=
  mkEnum (inr (Some (af_sample t 1, count_from (t + 1)))).

Definition endless_point : PIPoint := {|
  RecordedValues := fun _ _ _ _ _ => inr [];
  RecordedValuesPaged := fun _ _ _ _ _ => inr (count_from 0);
  Summary := fun _ _ _ _ => inr [];
  GetAttributes := fun _ => inr []
|}.

Definition endless_extractor : PIPointExtractor :=
  mkExtractor (fun _ => inr endless_point) (fun _ => inr 0).

(** An open connection whose point search fails. *)
Definition failing_search_conn : PIServerConn :=
  mkPIServerConn "GENCOPI" (fun _ _ => inl (SdkError "search failed")).

(** A server with one database holding one good and one failing analysis,
    and a connection whose search finds one point that fails to extract. *)
Definition demo_database : AFDatabase :=
  mkAFDatabase (inr "Plant")
    (inr (mkCollection (inr 2)
            [mkAFAnalysis (PStr "ok"); mkAFAnalysis (PStr "broken")] None)).

(** A server whose first database's [Name] cannot be read, followed by the
    good database. *)
Definition nameless_database : AFDatabase :=
  mkAFDatabase (inl (SdkError "Name unavailable")) (inr (mkCollection (inr 0) [] None)).

Definition name_failure_system : PISystem :=
  mkPISystem (inr tt) "GENCOPI"
    (inr (mkCollection (inr 2) [nameless_database; demo_database] None)) (inr tt).

Definition demo_system : PISystem :=
  mkPISystem (inr tt) "GENCOPI"
    (inr (mkCollection (inr 1) [demo_database] None)) (inr tt).

Definition demo_extract (a : AFAnalysis) (db_name : string) : Result Obj :=
  match analysis_obj a with
  | PStr "ok" => inr [("Name", PStr "ok"); ("Database", PStr db_name)]
  | _ => inl (SdkError "bad analysis")
  end.

Definition demo_conn : PIServerConn :=
  mkPIServerConn "GENCOPI" (fun _ _ => inr [mkPIPointObj (inr "TAG1")]).

(** The SDK's [PIPointList.CurrentValue()]: entry [i] of its answer is the
    [CurrentValue()] of the [i]-th point added to the list. *)
Definition pointlist_contract (ex : PIPointExtractorFull) : Prop :=
  forall points af_values,
    PIPointList_CurrentValue ex points = inr af_values ->
    forall i p, nth_error points i = Some p -> af_values i = CurrentValue p.

(** The summary types a [summary_types] argument asks for. *)
Definition requested (summary_types : SummaryTypes) : list SummaryType :=
  match summary_types with
  | OneSummary st => [st]
  | SummaryList sts => sts
  end.

(** What [[self._convert_value(v) for v in af_values]] produces: one value per
    raw value, in order, with its timestamp and quality; or the exception of
    the first raw value whose conversion raises, which is a .NET object without
    [Name] whose [float()] raises neither [ValueError] nor [TypeError]. *)
Definition conversion_outcome (af_values : list AFValue) (r : Result (list PIValue))
  : Prop :=
  match r with
  | inr ws =>
      Forall2 (fun v w => timestamp w = LocalTime (Timestamp v) /\
                          quality w = _convert_quality v) af_values ws
  | inl e =>
      exists pre a post ws,
        af_values = app pre (a :: post) /\
        map_result _convert_value pre = inr ws /\ _convert_value a = inl e /\
        exists obj, Value a = PNet obj /\ net_Name obj = None /\
          net_float obj = inl e /\ e <> ValueError /\ e <> TypeError
  end.

(** Reading a summary name back: a mapped name to its flag, any other string
    as a decimal integer. *)
Definition summary_name_decode (s : string) : option Z :=
  match find (fun kv => String.eqb (snd kv) s) summary_name_map with
  | Some kv => Some (fst kv)
  | None => option_map Z.of_int (NilZero.int_of_string s)
  end.

(** A point with the methods [snapshot], [interpolated_values],
    [plot_values] and [summaries] call; one interval holds two AVERAGE
    summaries. *)
Definition sample_full_point : PIPointFull := {|
  pf_point := one_event_point;
  CurrentValue := inr (af_sample 10 (3 # 2));
  InterpolatedValues := fun _ _ _ _ => inr [af_sample 10 (3 # 2); af_sample 20 2];
  PlotValues := fun _ _ => inr [af_sample 10 (3 # 2)];
  Summaries := fun _ _ _ _ _ =>
    inr [mkSummariesEntry (mkAFTime 10)
           [mkSummaryEntry 2 (PFloat 1); mkSummaryEntry 4 (PFloat 0)]]
|}.

Definition sample_full_extractor : PIPointExtractorFull :=
  mkExtractorFull (fun _ => inr sample_full_point) (fun _ => inr 0)
    (fun _ => inr 36000000000)
    (fun points => inr (fun i => match nth_error points i with
                                 | Some p => CurrentValue p
                                 | None => raise (SdkError "index out of range")
                                 end)).

(** A point whose [Summary] answers AVERAGE twice. *)
Definition dup_summary_point : PIPoint := {|
  RecordedValues := fun _ _ _ _ _ => inr [];
  RecordedValuesPaged := fun _ _ _ _ _ => inr (enum_of_list []);
  Summary := fun _ _ _ _ =>
               inr [mkSummaryEntry 2 (PFloat 1); mkSummaryEntry 2 (PFloat 3)];
  GetAttributes := fun _ => inr []
|}.

Definition dup_summary_extractor : PIPointExtractor :=
  mkExtractor (fun _ => inr dup_summary_point) (fun _ => inr 0).

(** ** Theorems: value conversion *)

Ltac split_all :=
  repeat match goal with
         | |- _ /\ _ => split
         | |- forall _, _ => intro
         end.

Example convert_digital_state :
  _convert_value (mkAFValue (mkAFTime 7)
                    (PNet (mkNet (Some "Active") "Active" (inl TypeError) (inl TypeError)))
                    (PBool true) None)
  = inr (mkPIValue 7 (PStr "Active") GOOD).
Proof. reflexivity. Qed.

Example convert_int_unchanged :
  _convert_value af_int_value = inr (mkPIValue 0 (PInt 5) GOOD).
Proof. reflexivity. Qed.

(** C1 (counterexample): a raw value without [Name] is not always coerced to
    float or to its string: a Python-native [int] 5 (no [ToString]) comes back
    as the [int] 5, where the rule as stated asks for the float 5.0. *)
Lemma convert_value_not_always_coerced :
  ~ (forall a r, _convert_value a = inr r -> spec_convert_value a r).
Proof.
  intros Hall.
  destruct (Hall af_int_value (mkPIValue 0 (PInt 5) GOOD) eq_refl) as [Hv _].
  vm_compute in Hv. discriminate Hv.
Qed.

(** The quality rule of [_convert_quality]. *)
Lemma convert_quality_spec : forall a,
  (flagged_bad a -> _convert_quality a = BAD) /\
  (~ flagged_bad a -> flagged_substituted a -> _convert_quality a = SUBSTITUTED) /\
  (~ flagged_bad a -> ~ flagged_substituted a -> _convert_quality a = GOOD).
Proof.
  intros [t v ig sub]; unfold flagged_bad, flagged_substituted, _convert_quality;
    simpl.
  repeat split.
  - intros ->; reflexivity.
  - intros Hne [sv [-> Ht]]; rewrite Ht.
    destruct ig as [ | [|] | ? | ? | ? | ? | ? | ? ]; try reflexivity.
    exfalso; apply Hne; reflexivity.
  - intros Hne Hns.
    assert (Hsub : match sub with
                   | Some sv => if py_truthy sv then SUBSTITUTED else GOOD
                   | None => GOOD
                   end = GOOD).
    { destruct sub as [sv|]; [ | reflexivity ].
      destruct (py_truthy sv) eqn:Ht; [ exfalso; apply Hns; eauto | reflexivity ]. }
    destruct ig as [ | [|] | ? | ? | ? | ? | ? | ? ]; try exact Hsub.
    exfalso; apply Hne; reflexivity.
Qed.

(** C1 (amended): [_convert_value] returns the state's name for a value with
    [Name]; for a .NET object without [Name] the float coercion, or
    [str(ToString())] when it raises [ValueError]/[TypeError]; any other value
    (a Python native such as int, float, str, bool or None) unchanged.  The
    quality is BAD when [IsGood is False], otherwise SUBSTITUTED when a truthy
    [Substituted] attribute is present, otherwise GOOD; the timestamp is the
    [LocalTime].  The conversion raises exactly when [float()] of a .NET
    object without [Name] raises another exception, and then raises that
    exception. *)
Theorem convert_value_cases : forall a,
  (forall o e, Value a = PNet o -> net_Name o = None -> net_float o = inl e ->
     e <> ValueError -> e <> TypeError -> _convert_value a = inl e) /\
  match _convert_value a with
  | inr r =>
      timestamp r = LocalTime (Timestamp a) /\
      (forall n, py_Name (Value a) = Some n -> value r = PStr n) /\
      (forall o, Value a = PNet o -> net_Name o = None ->
         (forall q, net_float o = inr q -> value r = PFloat q) /\
         (forall e, net_float o = inl e ->
            (e = ValueError \/ e = TypeError) /\ value r = PStr (net_ToString o))) /\
      (py_has_ToString (Value a) = false -> value r = Value a) /\
      (flagged_bad a -> quality r = BAD) /\
      (~ flagged_bad a -> flagged_substituted a -> quality r = SUBSTITUTED) /\
      (~ flagged_bad a -> ~ flagged_substituted a -> quality r = GOOD)
  | inl e =>
      exists o, Value a = PNet o /\ net_Name o = None /\ net_float o = inl e /\
                e <> ValueError /\ e <> TypeError
  end.
Proof.
  intros a; split.
  { intros o e Hv Hn Hf Hve Hte; unfold _convert_value; rewrite Hv; simpl.
    rewrite Hn, Hf; simpl.
    destruct e; try (exfalso; congruence); reflexivity. }
  pose proof (convert_quality_spec a) as [Q1 [Q2 Q3]].
  unfold _convert_value.
  remember (_convert_quality a) as qa eqn:Hqa; clear Hqa.
  destruct a as [[ts] v ig sub]; unfold flagged_bad, flagged_substituted in *;
    simpl in *.
  destruct v as [ | b | z | q | s | xs | en | o ]; simpl;
    [ split_all; auto; try congruence .. | ].
  destruct (net_Name o) as [n|] eqn:Hn; simpl.
  - split_all; auto; try congruence.
  - destruct (net_float o) as [e|q] eqn:Hf.
    + destruct e; simpl;
        try (exists o; repeat split; auto; discriminate);
        split_all; auto; try congruence;
        first [ left; congruence | right; congruence ].
    + simpl; split_all; auto; try congruence.
Qed.

Lemma convert_value_cases_witness :
  _convert_value af_overflow_value = inl (SdkError "OverflowError").
Proof.
  apply (proj1 (convert_value_cases af_overflow_value) overflow_net);
    [ reflexivity | reflexivity | reflexivity | discriminate | discriminate ].
Defined.

Lemma convert_value_quality : forall a r,
  _convert_value a = inr r -> quality r = _convert_quality a.
Proof.
  intros a r H; unfold _convert_value in H.
  destruct (match py_Name (Value a) with
            | Some name => ret (PStr name)
            | None => _
            end); simpl in H; [ discriminate | ].
  inversion H; reflexivity.
Qed.

(** C9: BAD takes precedence over SUBSTITUTED: a value whose [IsGood] is
    [False] gets quality BAD even when it is also substituted, and a value
    reported SUBSTITUTED never has [IsGood] [False]. *)
Theorem convert_value_bad_precedence : forall a r,
  _convert_value a = inr r ->
  (IsGood a = PBool false -> quality r = BAD) /\
  (quality r = SUBSTITUTED -> IsGood a <> PBool false).
Proof.
  intros a r H; rewrite (convert_value_quality a r H).
  pose proof (convert_quality_spec a) as [Q1 _].
  split.
  - exact Q1.
  - intros Hs Hb; rewrite (Q1 Hb) in Hs; discriminate.
Qed.

Lemma convert_value_bad_precedence_witness :
  _convert_value af_bad_substituted = inr (mkPIValue 1 (PFloat 1) BAD) /\
  quality (mkPIValue 1 (PFloat 1) BAD) = BAD.
Proof.
  split; [ reflexivity | ].
  apply (proj1 (convert_value_bad_precedence af_bad_substituted _ eq_refl)).
  reflexivity.
Defined.

(** ** Theorems: [get_point_config] *)

Lemma bind_inr : forall {A B} (r : Result A) (k : A -> Result B) b,
  bind r k = inr b -> exists a, r = inr a /\ k a = inr b.
Proof. intros A B [e|a] k b H; simpl in H; [ discriminate | eauto ]. Qed.

(** C10: the point type of a configuration returned by [get_point_config] is a
    [PointType] member: FLOAT32 when the [pointtype] attribute is absent,
    FLOAT64 when it is present with a string outside [point_type_map]. *)
Theorem get_point_config_point_type : forall `{PyBuiltins} ex tag p attrs cfg,
  get_point ex tag = inr p ->
  GetAttributes p point_attribute_names = inr attrs ->
  get_point_config ex tag = inr cfg ->
  exists t : PointType,
    dc_getattr cfg "point_type" = inr (PEnum (EPointType t)) /\
    (dict_lookup "pointtype" attrs = None -> t = FLOAT32) /\
    (forall v, dict_lookup "pointtype" attrs = Some v ->
       dict_lookup (py_str v) point_type_map = None -> t = FLOAT64).
Proof.
  intros B ex tag p attrs cfg Hp Ha Hc.
  unfold get_point_config in Hc; rewrite Hp in Hc; simpl in Hc.
  rewrite Ha in Hc; simpl in Hc.
  do 5 (apply bind_inr in Hc; destruct Hc as [? [_ Hc]]).
  cbn in Hc; injection Hc as <-.
  exists (dict_get point_type_map
            (py_str (dict_get attrs "pointtype" (PStr "Float32"))) FLOAT64).
  split; [ reflexivity | split ].
  - intros Hn; unfold dict_get at 2; rewrite Hn; reflexivity.
  - intros v Hv Hm; unfold dict_get at 2; rewrite Hv.
    unfold dict_get; rewrite Hm; reflexivity.
Qed.

Lemma get_point_config_point_type_witness :
  exists cfg, get_point_config odd_type_extractor "T1" = inr cfg /\
    exists t, dc_getattr cfg "point_type" = inr (PEnum (EPointType t)) /\ t = FLOAT64.
Proof.
  eexists; split; [ reflexivity | ].
  destruct (get_point_config_point_type odd_type_extractor "T1" odd_type_point
              [("pointid", PInt 12); ("pointtype", PStr "Float128")] _
              eq_refl eq_refl eq_refl) as [t [Ht [_ Hodd]]].
  exists t; split; [ exact Ht | ].
  apply (Hodd (PStr "Float128")); reflexivity.
Defined.

(** ** Theorems: the record types *)

(** C8: [PointConfig(name=..., point_id=..., point_type=...)] succeeds and
    every optional field listed below takes its default. *)
Theorem PointConfig_required_only : forall name point_id point_type,
  exists cfg,
    dc_init PointConfig
      [("name", name); ("point_id", point_id); ("point_type", point_type)]
    = inr cfg /\
    forall f d,
      In (f, d) [("value_high_alarm", PNone); ("value_low_alarm", PNone);
                 ("value_high_warning", PNone); ("value_low_warning", PNone);
                 ("roc_high_value", PNone); ("roc_low_value", PNone);
                 ("interface_id", PNone); ("source_point_id", PNone);
                 ("conversion_factor", PNone);
                 ("interface_name", PStr ""); ("scan_time", PStr "");
                 ("source_point_name", PStr ""); ("device_name", PStr "");
                 ("alias", PStr "")] ->
      dc_getattr cfg f = inr d.
Proof.
  intros name point_id point_type.
  eexists; split; [ reflexivity | ].
  intros f d Hin; simpl in Hin.
  repeat (destruct Hin as [Hin | Hin]; [ inversion Hin; subst; reflexivity | ]).
  contradiction.
Qed.

(** C6: every assignment to a field of an [AnalysisInfo] raises
    [FrozenInstanceError] (an [AttributeError]) and leaves the record as it
    was. *)
Theorem AnalysisInfo_assignment_fails : forall (info : Obj) f v,
  run_setattr AnalysisInfo info f v = (info, Some FrozenInstanceError) /\
  is_attribute_error FrozenInstanceError = true.
Proof. intros; split; reflexivity. Qed.

(** ** Theorems: client configuration *)

(** C5: empty, whitespace-only, [None] and omitted server names give host
    "localhost"; a non-blank name is used verbatim; an explicit [config] wins
    over any [server] argument. *)
Theorem PIClient_server_resolution :
  host (server (PIClient_config (Some (ServerName "")) None)) = "localhost" /\
  (forall s, s <> "" -> is_blank s = true ->
     host (server (PIClient_config (Some (ServerName s)) None)) = "localhost") /\
  host (server (PIClient_config None None)) = "localhost" /\
  host (server PIClient_config_no_args) = "localhost" /\
  (forall s, is_blank s = false ->
     host (server (PIClient_config (Some (ServerName s)) None)) = s) /\
  (forall server_arg c,
     host (server (PIClient_config server_arg (Some c))) = host (server c)).
Proof.
  split; [ reflexivity | ].
  split; [ intros s _ Hb; simpl; rewrite Hb; reflexivity | ].
  split; [ reflexivity | ].
  split; [ reflexivity | ].
  split; [ intros s Hb; simpl; rewrite Hb; reflexivity | ].
  intros; reflexivity.
Qed.

Lemma PIClient_server_resolution_witness :
  host (server (PIClient_config (Some (ServerName "   ")) None)) = "localhost" /\
  host (server (PIClient_config (Some (ServerName "my-pi-server")) None))
    = "my-pi-server" /\
  host (server (PIClient_config (Some (ServerName "server-arg"))
                  (Some (mkPIConfig (mkPIServerConfig "config-host")))))
    = "config-host".
Proof.
  destruct PIClient_server_resolution as [_ [Hws [_ [_ [Hname Hcfg]]]]].
  split; [ apply Hws; [ discriminate | reflexivity ] | ].
  split; [ apply Hname; reflexivity | ].
  apply Hcfg.
Defined.

(** ** Theorems: [summary] *)

Lemma dict_set_keys : forall {A} (k : string) (v : A) d,
  forall k', In k' (map fst (dict_set k v d)) <-> k' = k \/ In k' (map fst d).
Proof.
  intros A k v d; induction d as [| [k0 v0] d IH]; intros k'; simpl.
  - intuition congruence.
  - destruct (String.eqb k k0) eqn:E; simpl.
    + apply String.eqb_eq in E; subst; intuition congruence.
    + rewrite IH; intuition congruence.
Qed.

Lemma dict_set_nodup : forall {A} (k : string) (v : A) d,
  NoDup (map fst d) -> NoDup (map fst (dict_set k v d)).
Proof.
  intros A k v d; induction d as [| [k0 v0] d IH]; intros Hnd; simpl.
  - constructor; [ intros [] | constructor ].
  - inversion Hnd as [| ? ? Hnin Hnd']; subst.
    destruct (String.eqb k k0) eqn:E; simpl.
    + apply String.eqb_eq in E; subst; constructor; assumption.
    + constructor; [ | apply IH; assumption ].
      rewrite dict_set_keys; intros [Heq | Hin]; [ | contradiction ].
      subst; rewrite String.eqb_refl in E; discriminate.
Qed.

Lemma summary_result_keys : forall sums acc k,
  In k (map fst (fold_left (fun result s =>
           dict_set (summary_name (SummaryTypeOf s)) (SummaryValue s) result)
         sums acc)) <->
  In k (map fst acc) \/ In k (map (fun s => summary_name (SummaryTypeOf s)) sums).
Proof.
  induction sums as [| s sums IH]; intros acc k; simpl.
  - tauto.
  - rewrite IH, dict_set_keys; intuition congruence.
Qed.

Lemma summary_result_nodup : forall sums acc,
  NoDup (map fst acc) ->
  NoDup (map fst (fold_left (fun result s =>
           dict_set (summary_name (SummaryTypeOf s)) (SummaryValue s) result)
         sums acc)).
Proof.
  induction sums as [| s sums IH]; intros acc H; simpl; auto.
  apply IH, dict_set_nodup, H.
Qed.

(** C2: [summary] with [[AVERAGE, MINIMUM, MAXIMUM, COUNT]] returns a
    dictionary whose keys are exactly "average", "minimum", "maximum" and
    "count" (given an SDK answering one summary per requested flag), and the
    names of the nine flags are the ones listed. *)
Theorem summary_four_aggregates : forall ex tag start end_ p res,
  get_point ex tag = inr p ->
  summary_contract p ->
  summary ex tag start end_ (SummaryList [AVERAGE; MINIMUM; MAXIMUM; COUNT])
    = inr res ->
  (forall k, In k (map fst res) <->
             In k ["average"; "minimum"; "maximum"; "count"]) /\
  NoDup (map fst res) /\
  map (fun st => (SummaryType_value st, summary_name (SummaryType_value st)))
      [TOTAL; AVERAGE; MINIMUM; MAXIMUM; RANGE; STD_DEV; POPULATION_STD_DEV;
       COUNT; PERCENT_GOOD]
  = [(1, "total"); (2, "average"); (4, "minimum"); (8, "maximum");
     (16, "range"); (32, "std_dev"); (64, "pop_std_dev"); (128, "count");
     (8192, "percent_good")].
Proof.
  intros ex tag start end_ p res Hp Hc Hs.
  unfold summary in Hs; rewrite Hp in Hs; simpl in Hs.
  apply bind_inr in Hs; destruct Hs as [tr [_ Hs]].
  apply bind_inr in Hs; destruct Hs as [sums [Hsum Hs]].
  injection Hs as <-.
  pose proof (Hc _ _ _ _ _ Hsum) as Hset.
  assert (Hfb : flag_bits 142 = [2; 4; 8; 128]) by (vm_compute; reflexivity).
  simpl in Hsum; rewrite Hfb in Hset.
  split; [ | split; [ apply summary_result_nodup; constructor | reflexivity ] ].
  intros k; unfold summary_result; rewrite summary_result_keys; simpl.
  split.
  - intros [[] | Hin].
    apply in_map_iff in Hin; destruct Hin as [s [<- Hin]].
    assert (Ht : In (SummaryTypeOf s) (map SummaryTypeOf sums))
      by (apply in_map; exact Hin).
    apply Hset in Ht; simpl in Ht.
    destruct Ht as [<- | [<- | [<- | [<- | []]]]]; simpl; tauto.
  - intros Hk; right; apply in_map_iff.
    assert (Hpick : forall t, In t [2; 4; 8; 128] ->
              exists s, SummaryTypeOf s = t /\ In s sums).
    { intros t Ht; apply Hset in Ht; apply in_map_iff in Ht; exact Ht. }
    destruct Hk as [<- | [<- | [<- | [<- | []]]]];
      [ destruct (Hpick 2) as [s [Hst Hin]]
      | destruct (Hpick 4) as [s [Hst Hin]]
      | destruct (Hpick 8) as [s [Hst Hin]]
      | destruct (Hpick 128) as [s [Hst Hin]] ];
      simpl; auto; exists s; rewrite Hst; auto.
Qed.

Lemma summary_four_aggregates_witness :
  exists res,
    summary exact_summary_extractor "SINUSOID" (TStr "*-1d") (TStr "*")
      (SummaryList [AVERAGE; MINIMUM; MAXIMUM; COUNT]) = inr res /\
    map fst res = ["average"; "minimum"; "maximum"; "count"] /\
    NoDup (map fst res).
Proof.
  eexists; split; [ reflexivity | split; [ reflexivity | ] ].
  refine (proj1 (proj2 (summary_four_aggregates exact_summary_extractor
            "SINUSOID" (TStr "*-1d") (TStr "*") exact_summary_point _
            eq_refl _ eq_refl))).
  intros tr mask cb tc sums H t; simpl in H; injection H as <-.
  rewrite map_map; simpl; rewrite map_id; reflexivity.
Defined.

(** ** Theorems: [recorded_values] *)

Lemma map_result_Forall2 : forall {A B} (f : A -> Result B) xs ys,
  map_result f xs = inr ys -> Forall2 (fun x y => f x = inr y) xs ys.
Proof.
  intros A B f xs; induction xs as [| x xs IH]; intros ys H; simpl in H.
  - injection H as <-; constructor.
  - destruct (f x) as [e|y] eqn:Hf; simpl in H; [ discriminate | ].
    destruct (map_result f xs) as [e|ys'] eqn:Hm; simpl in H; [ discriminate | ].
    injection H as <-; constructor; auto.
Qed.

Lemma convert_value_timestamp : forall a r,
  _convert_value a = inr r -> timestamp r = LocalTime (Timestamp a).
Proof.
  intros a r H; unfold _convert_value in H.
  destruct (match py_Name (Value a) with
            | Some name => ret (PStr name)
            | None => _
            end); simpl in H; [ discriminate | ].
  inversion H; reflexivity.
Qed.

Lemma converted_sorted : forall vs xs,
  Forall2 (fun v x => _convert_value v = inr x) vs xs ->
  StronglySorted (fun x y : AFValue => LocalTime (Timestamp x) < LocalTime (Timestamp y)) vs ->
  StronglySorted (fun x y : PIValue => timestamp x < timestamp y) xs.
Proof.
  intros vs xs H; induction H as [| v x vs xs Hvx Hrest IH]; intros Hs.
  - constructor.
  - inversion Hs as [| ? ? Hs' Hall]; subst.
    constructor; [ apply IH; exact Hs' | ].
    clear IH Hs Hs'.
    induction Hrest as [| v' x' vs' xs' Hvx' Hrest' IH']; constructor.
    + inversion Hall; subst.
      rewrite (convert_value_timestamp _ _ Hvx), (convert_value_timestamp _ _ Hvx').
      assumption.
    + apply IH'; inversion Hall; assumption.
Qed.

(** C3: [recorded_values] queries the SDK once, with the boundary mapped
    member for member (INSIDE/OUTSIDE/INTERPOLATED), the filter expression,
    the include-filtered flag and [max_count] as given (defaults: INSIDE, no
    filter, False, 0), and returns the converted events in the SDK's order:
    strictly ascending timestamps, at most [max_count] of them when it is
    positive. *)
Theorem recorded_values_ordered : forall ex tag start end_ options p xs,
  get_point ex tag = inr p ->
  recorded_contract p ->
  recorded_values ex tag start end_ options = inr xs ->
  let o := match options with Some o => o | None => default_options end in
  exists tr vs,
    _create_time_range ex start end_ = inr tr /\
    RecordedValues p tr (boundary_map (boundary_type o)) (filter_expression o)
      (include_filtered_values o) (max_count o) = inr vs /\
    map_result _convert_value vs = inr xs /\
    StronglySorted (fun x y : PIValue => timestamp x < timestamp y) xs /\
    (0 < max_count o -> Z.of_nat (length xs) <= max_count o).
Proof.
  intros ex tag start end_ options p xs Hp Hc Hr o.
  unfold recorded_values in Hr; fold o in Hr; rewrite Hp in Hr; simpl in Hr.
  apply bind_inr in Hr; destruct Hr as [tr [Htr Hr]].
  apply bind_inr in Hr; destruct Hr as [vs [Hvs Hr]].
  exists tr, vs; split; [ exact Htr | split; [ exact Hvs | split; [ exact Hr | ] ] ].
  destruct (Hc _ _ _ _ _ _ Hvs) as [Hsorted Hcap].
  pose proof (map_result_Forall2 _ _ _ Hr) as H2.
  split; [ exact (converted_sorted _ _ H2 Hsorted) | ].
  rewrite <- (Forall2_length H2); exact Hcap.
Qed.

Lemma firstn_Forall : forall (A : Type) (P : A -> Prop) n l,
  Forall P l -> Forall P (firstn n l).
Proof.
  intros A P n l; revert n; induction l as [| a l IH]; intros [| n] H; simpl;
    try constructor; inversion H; subst; auto.
Qed.

Lemma firstn_StronglySorted : forall (A : Type) (R : A -> A -> Prop) n l,
  StronglySorted R l -> StronglySorted R (firstn n l).
Proof.
  intros A R n l; revert n; induction l as [| a l IH]; intros [| n] H; simpl;
    try constructor; apply StronglySorted_inv in H; destruct H as [H1 H2];
    [ apply IH; exact H1 | apply firstn_Forall; exact H2 ].
Qed.

Lemma three_events_sorted :
  StronglySorted (fun x y : AFValue => LocalTime (Timestamp x) < LocalTime (Timestamp y))
    three_events.
Proof.
  unfold three_events.
  repeat (apply SSorted_cons; [ | repeat constructor; simpl; lia ]).
  apply SSorted_nil.
Qed.

Lemma three_event_recorded_contract : recorded_contract three_event_point.
Proof.
  intros tr b f incl mc vs H; simpl in H; injection H as <-.
  destruct (0 <? mc) eqn:Hm.
  - split; [ apply firstn_StronglySorted, three_events_sorted | intros _ ].
    rewrite length_firstn; simpl length.
    apply Z.ltb_lt in Hm. rewrite Nat2Z.inj_min, Z2Nat.id by lia; lia.
  - split; [ apply three_events_sorted | intros H; apply Z.ltb_ge in Hm; lia ].
Qed.

Lemma recorded_values_ordered_witness :
  exists xs,
    recorded_values three_event_extractor "SINUSOID" (TStr "*-1d") (TStr "*")
      (Some (mkOptions INSIDE None false 2)) = inr xs /\
    xs = [mkPIValue 10 (PFloat (3 # 2)) GOOD; mkPIValue 20 (PFloat 2) GOOD] /\
    StronglySorted (fun x y : PIValue => timestamp x < timestamp y) xs /\
    (Z.of_nat (length xs) <= 2).
Proof.
  eexists; split; [ reflexivity | split; [ reflexivity | ] ].
  destruct (recorded_values_ordered three_event_extractor "SINUSOID" (TStr "*-1d")
              (TStr "*") (Some (mkOptions INSIDE None false 2)) three_event_point _
              eq_refl three_event_recorded_contract eq_refl)
    as [tr [vs [_ [_ [_ [Hs Hcap]]]]]].
  split; [ exact Hs | apply Hcap; simpl; lia ].
Defined.

(** ** Theorems: [recorded_values_iterator] *)

Lemma convert_until_map_result : forall vs,
  match map_result _convert_value vs with
  | inr xs => convert_until vs = (xs, None)
  | inl e => exists pre, convert_until vs = (pre, Some e)
  end.
Proof.
  induction vs as [| v vs IH]; simpl; [ reflexivity | ].
  destruct (_convert_value v) as [e|x]; simpl; [ eauto | ].
  destruct (map_result _convert_value vs) as [e|xs]; simpl.
  - destruct IH as [pre Hpre]; rewrite Hpre; eauto.
  - rewrite IH; reflexivity.
Qed.

Lemma gen_drain_loop : forall vs en en' g m,
  enum_advances en vs en' -> MoveNext en' = inr None ->
  (length vs < m)%nat ->
  gen_drain m (gen_with g (GenLoop en)) = Some (convert_until vs).
Proof.
  induction vs as [| v vs IH]; intros en en' g m Hadv Hend Hm;
    (destruct m as [| m]; [ simpl in Hm; lia | ]); simpl in Hadv.
  - subst en'; cbn [gen_drain]; unfold gen_next; simpl; unfold gen_loop_step.
    rewrite Hend; reflexivity.
  - destruct Hadv as [en1 [Hmv Hadv]].
    cbn [gen_drain]; unfold gen_next; simpl; unfold gen_loop_step; rewrite Hmv.
    destruct (_convert_value v) as [e|x]; [ reflexivity | ].
    change (gen_with (gen_with g (GenLoop en)) (GenLoop en1)) with (gen_with g (GenLoop en1)).
    rewrite (IH en1 en' g m Hadv Hend) by (simpl in Hm; lia).
    destruct (convert_until vs); reflexivity.
Qed.

Lemma gen_nexts_loop : forall vs en en' g xs,
  enum_advances en vs en' -> map_result _convert_value vs = inr xs ->
  gen_nexts (length vs) (gen_with g (GenLoop en))
    = (map (fun x => inr (Some x)) xs, gen_with g (GenLoop en')).
Proof.
  induction vs as [| v vs IH]; intros en en' g xs Hadv Hconv; simpl in Hadv.
  - subst en'; simpl in Hconv; unfold ret in Hconv; injection Hconv as <-; reflexivity.
  - destruct Hadv as [en1 [Hmv Hadv]].
    simpl in Hconv; apply bind_inr in Hconv; destruct Hconv as [x [Hx Hconv]].
    apply bind_inr in Hconv; destruct Hconv as [xs' [Hxs Hconv]].
    unfold ret in Hconv; injection Hconv as <-.
    cbn [length gen_nexts]; unfold gen_next at 1; simpl; unfold gen_loop_step.
    rewrite Hmv, Hx.
    change (gen_with (gen_with g (GenLoop en)) (GenLoop en1)) with (gen_with g (GenLoop en1)).
    rewrite (IH en1 en' g xs' Hadv Hxs); reflexivity.
Qed.

Lemma enum_of_list_yields : forall vs, enum_yields (enum_of_list vs) vs.
Proof.
  intros vs; exists (enum_of_list []); split; [ | reflexivity ].
  induction vs as [| v vs IH]; simpl; [ reflexivity | ].
  exists (enum_of_list vs); split; [ reflexivity | exact IH ].
Qed.

(** C7: the generator returned by [recorded_values_iterator] has run nothing
    when created.  It works incrementally: for any enumerator the SDK's paged
    query returns (however long, even endless, whatever it does later), after
    [k >= 1] calls of [next] it has yielded exactly the conversions of the
    first [k] events, one per call, and holds only the SDK enumerator
    positioned right after the [k]-th event: nothing further has been read and
    no list of values is kept.  Driven to the end it stops after finitely many
    steps and yields exactly the values of [recorded_values] with default
    options (when that raises, it yields a prefix and raises the same
    exception) -- given that the SDK's paging enumerates the same events as
    the unpaged query. *)
Theorem iterator_matches_recorded_values : forall ex tag start end_ page_size,
  let g := recorded_values_iterator ex tag start end_ page_size in
  gen_state g = GenStart /\
  (forall p tr en vs en' xs,
     get_point ex tag = inr p ->
     _create_time_range ex start end_ = inr tr ->
     RecordedValuesPaged p tr Inside None false (mkPaging EventCount page_size) = inr en ->
     vs <> [] -> enum_advances en vs en' ->
     map_result _convert_value vs = inr xs ->
     gen_nexts (length vs) g = (map (fun x => inr (Some x)) xs, gen_with g (GenLoop en'))) /\
  ((forall p, get_point ex tag = inr p -> paging_contract p) ->
   match recorded_values ex tag start end_ None with
   | inr xs => exists n, forall m, (n <= m)%nat -> gen_drain m g = Some (xs, None)
   | inl e => exists n pre, forall m, (n <= m)%nat -> gen_drain m g = Some (pre, Some e)
   end).
Proof.
  intros ex tag start end_ page_size g.
  assert (Hnext : gen_next g =
            match iterator_prologue g with
            | inl e => (inl e, gen_with g GenDone)
            | inr en => gen_loop_step g en
            end) by reflexivity.
  split; [ reflexivity | split ].
  - intros p tr en vs en' xs Hp Htr Hen Hne Hadv Hconv.
    destruct vs as [| v vs]; [ contradiction | ].
    destruct Hadv as [en1 [Hmv Hadv]].
    simpl in Hconv; apply bind_inr in Hconv; destruct Hconv as [x [Hx Hconv]].
    apply bind_inr in Hconv; destruct Hconv as [xs' [Hxs Hconv]].
    unfold ret in Hconv; injection Hconv as <-.
    assert (Hpro : iterator_prologue g = inr en).
    { unfold iterator_prologue, g; simpl; rewrite Hp; simpl; rewrite Htr; simpl; exact Hen. }
    cbn [length gen_nexts]; rewrite Hnext, Hpro; unfold gen_loop_step; rewrite Hmv, Hx.
    rewrite (gen_nexts_loop vs en1 en' g xs' Hadv Hxs); reflexivity.
  - intros Hpc.
    unfold recorded_values; simpl.
    destruct (get_point ex tag) as [e|p] eqn:Hp; simpl.
    { exists 1%nat, []; intros m Hm; destruct m as [| m]; [ lia | ].
      cbn [gen_drain]; rewrite Hnext; unfold iterator_prologue; simpl; rewrite Hp.
      reflexivity. }
    destruct (_create_time_range ex start end_) as [e|tr] eqn:Htr; simpl.
    { exists 1%nat, []; intros m Hm; destruct m as [| m]; [ lia | ].
      cbn [gen_drain]; rewrite Hnext; unfold iterator_prologue; simpl; rewrite Hp; simpl.
      rewrite Htr; reflexivity. }
    assert (Hpro : iterator_prologue g =
              RecordedValuesPaged p tr Inside None false (mkPaging EventCount page_size)).
    { unfold iterator_prologue, g; simpl; rewrite Hp; simpl; rewrite Htr; reflexivity. }
    pose proof (Hpc p eq_refl tr Inside None false (mkPaging EventCount page_size)) as Hc.
    destruct (RecordedValues p tr Inside None false 0) as [e|vs] eqn:Hvs; simpl.
    { exists 1%nat, []; intros m Hm; destruct m as [| m]; [ lia | ].
      cbn [gen_drain]; rewrite Hnext, Hpro, Hc; reflexivity. }
    destruct Hc as [en [Hen [en' [Hadv Hend]]]].
    assert (Hstep : forall m, (length vs < m)%nat ->
              gen_drain (S m) g = Some (convert_until vs)).
    { intros m Hm; rewrite <- (gen_drain_loop vs en en' g (S m) Hadv Hend) by lia.
      cbn [gen_drain]; rewrite Hnext, Hpro, Hen; reflexivity. }
    pose proof (convert_until_map_result vs) as Hcu.
    destruct (map_result _convert_value vs) as [e|xs].
    + destruct Hcu as [pre Hpre].
      exists (S (S (length vs))), pre; intros m Hm.
      destruct m as [| m]; [ lia | ]; rewrite Hstep by lia; rewrite Hpre; reflexivity.
    + exists (S (S (length vs))); intros m Hm.
      destruct m as [| m]; [ lia | ]; rewrite Hstep by lia; rewrite Hcu; reflexivity.
Qed.

Lemma iterator_matches_recorded_values_witness :
  gen_nexts 3 (recorded_values_iterator endless_extractor "SINUSOID"
                 (TStr "*-1d") (TStr "*") 10000)
  = ([inr (Some (mkPIValue 0 (PFloat 1) GOOD)); inr (Some (mkPIValue 1 (PFloat 1) GOOD));
      inr (Some (mkPIValue 2 (PFloat 1) GOOD))],
     gen_with (recorded_values_iterator endless_extractor "SINUSOID"
                 (TStr "*-1d") (TStr "*") 10000) (GenLoop (count_from 3))) /\
  exists n, forall m, (n <= m)%nat ->
    gen_drain m (recorded_values_iterator three_event_extractor "SINUSOID"
                   (TStr "*-1d") (TStr "*") 10000)
    = Some ([mkPIValue 10 (PFloat (3 # 2)) GOOD; mkPIValue 20 (PFloat 2) GOOD;
             mkPIValue 30 (PFloat (5 # 2)) GOOD], None).
Proof.
  split.
  - destruct (iterator_matches_recorded_values endless_extractor "SINUSOID"
                (TStr "*-1d") (TStr "*") 10000) as [_ [H _]].
    exact (H endless_point (mkAFTimeRange 0 0) (count_from 0)
             [af_sample 0 1; af_sample 1 1; af_sample 2 1] (count_from 3)
             [mkPIValue 0 (PFloat 1) GOOD; mkPIValue 1 (PFloat 1) GOOD;
              mkPIValue 2 (PFloat 1) GOOD]
             eq_refl eq_refl eq_refl ltac:(discriminate)
             (ex_intro _ (count_from 1) (conj eq_refl
               (ex_intro _ (count_from 2) (conj eq_refl
                 (ex_intro _ (count_from 3) (conj eq_refl eq_refl))))))
             eq_refl).
  - destruct (iterator_matches_recorded_values three_event_extractor "SINUSOID"
                (TStr "*-1d") (TStr "*") 10000) as [_ [_ H]].
    assert (Hc : forall p, get_point three_event_extractor "SINUSOID" = inr p ->
                   paging_contract p).
    { intros p Hp; injection Hp as <-; intros tr b f incl pc; simpl.
      exists (enum_of_list three_events); split; [ reflexivity | ].
      apply enum_of_list_yields. }
    specialize (H Hc).
    change (recorded_values three_event_extractor "SINUSOID" (TStr "*-1d") (TStr "*") None)
      with (inr [mkPIValue 10 (PFloat (3 # 2)) GOOD; mkPIValue 20 (PFloat 2) GOOD;
                 mkPIValue 30 (PFloat (5 # 2)) GOOD] : Result (list PIValue)) in H.
    exact H.
Defined.

(** ** Theorems: batch extraction *)

Section BatchTheorems.

Variable extract_analysis_info_raw : AFAnalysis -> string -> Result Obj.
Variable extract_point_body : PIPointObj -> Result Obj.

Lemma analyses_loop_spec : forall db_name items,
  snd (analyses_loop extract_analysis_info_raw db_name items)
    = analysis_successes extract_analysis_info_raw db_name items /\
  (forall a e, In a items -> extract_analysis_info_raw a db_name = inl e ->
     In (LogAnalysisError e) (fst (analyses_loop extract_analysis_info_raw db_name items))).
Proof.
  intros db_name items; induction items as [| a items [IH1 IH2]]; simpl.
  - split; [ reflexivity | intros ? ? [] ].
  - destruct (analyses_loop extract_analysis_info_raw db_name items) as [log got].
    simpl in IH1, IH2; subst got.
    destruct (extract_analysis_info_raw a db_name) as [e|info] eqn:Ha; simpl.
    + split; [ reflexivity | ].
      intros a' e' [<- | Hin] Ha'; [ left; congruence | right; eauto ].
    + split; [ reflexivity | ].
      intros a' e' [<- | Hin] Ha'; [ congruence | eauto ].
Qed.

Lemma databases_loop_spec : forall dbs,
  (forall db, In db dbs -> exists nm, db_Name db = inr nm) ->
  snd (databases_loop extract_analysis_info_raw dbs) = inr (flat_map (db_successes extract_analysis_info_raw) dbs).
Proof.
  induction dbs as [| db dbs IH]; intros Hn; simpl; [ reflexivity | ].
  destruct (Hn db (or_introl eq_refl)) as [nm Hnm]; rewrite Hnm.
  unfold database_body.
  assert (Hrest := IH (fun d H => Hn d (or_intror H))).
  destruct (databases_loop extract_analysis_info_raw dbs) as [log2 r] eqn:Hd.
  simpl in Hrest; subst r.
  unfold db_successes; rewrite Hnm.
  destruct (db_Analyses db) as [e|coll]; simpl; [ reflexivity | ].
  destruct (coll_Count coll) as [e|n]; simpl; [ reflexivity | ].
  pose proof (proj1 (analyses_loop_spec nm (coll_items coll))) as Hl.
  destruct (analyses_loop extract_analysis_info_raw nm (coll_items coll)) as [log got].
  simpl in Hl; subst got; reflexivity.
Qed.

Lemma points_loop_spec : forall i n points,
  snd (points_loop extract_point_body i n points) = flat_map (point_outcome extract_point_body) points /\
  (forall point e, In point points -> extract_point_body point = inl e ->
     In (LogPointError e) (fst (points_loop extract_point_body i n points))).
Proof.
  intros i n points; revert i; induction points as [| pt points IH]; intros i; simpl.
  - split; [ reflexivity | intros ? ? [] ].
  - destruct (IH (S i)) as [IH1 IH2].
    destruct (points_loop extract_point_body (S i) n points) as [log got].
    simpl in IH1, IH2; subst got.
    assert (Hpo : point_outcome extract_point_body pt =
              match extract_point_body pt with
              | inr point_info => [point_info]
              | inl e =>
                  match handler_name pt with
                  | inr name => [[("name", PStr name); ("error", PStr (exc_message e))]]
                  | inl _ => []
                  end
              end) by reflexivity.
    rewrite Hpo.
    destruct (extract_point_body pt) as [e|info] eqn:Hb; simpl.
    + destruct (handler_name pt) as [e'|name]; simpl;
        (split; [ reflexivity | ]);
        intros pt' e0 [<- | Hin] Hb'; [ left; congruence | right; eauto
                                      | left; congruence | right; eauto ].
    + split; [ reflexivity | ].
      intros pt' e0 [<- | Hin] Hb'; [ congruence | ].
      apply in_or_app; right; eauto.
Qed.

Lemma databases_loop_ok : forall dbs all,
  snd (databases_loop extract_analysis_info_raw dbs) = inr all ->
  forall d, In d dbs -> exists nm, db_Name d = inr nm.
Proof.
  induction dbs as [| db dbs IH]; intros all H d Hin; [ destruct Hin | ].
  revert H; cbn [databases_loop].
  destruct (db_Name db) as [e|nm] eqn:Hn; [ simpl; intros H; discriminate H | ].
  destruct (database_body extract_analysis_info_raw nm db) as [[log1 got] err].
  destruct (databases_loop extract_analysis_info_raw dbs) as [log2 r] eqn:Hd.
  destruct r as [e|more]; simpl; intros H; [ discriminate H | ].
  destruct Hin as [<- | Hin]; [ eauto | ].
  apply (IH more); [ first [ reflexivity | rewrite Hd; reflexivity ] | exact Hin ].
Qed.

Lemma databases_loop_error : forall dbs e,
  snd (databases_loop extract_analysis_info_raw dbs) = inl e <->
  exists pre db post, dbs = (pre ++ db :: post)%list /\
    (forall d, In d pre -> exists nm, db_Name d = inr nm) /\ db_Name db = inl e.
Proof.
  induction dbs as [| db dbs IH]; intros e.
  - simpl; split; [ discriminate | ].
    intros [pre [db [post [H _]]]]; destruct pre; discriminate H.
  - assert (IHe := IH e).
    cbn [databases_loop]; destruct (db_Name db) as [e0|nm] eqn:Hn.
    + simpl; unfold raise; split.
      * intros H; exists [], db, dbs; split; [ reflexivity | split ];
          [ intros d [] | congruence ].
      * intros [pre [db' [post [Heq [Hpre Hdb]]]]].
        destruct pre as [| d pre]; simpl in Heq; inversion Heq; subst.
        -- congruence.
        -- destruct (Hpre d (or_introl eq_refl)) as [nm Hnm]; congruence.
    + destruct (database_body extract_analysis_info_raw nm db) as [[log1 got] err].
      destruct (databases_loop extract_analysis_info_raw dbs) as [log2 r] eqn:Hd.
      cbn [snd] in IHe |- *.
      split.
      * intros H; destruct r as [e1|more]; simpl in H; [ | discriminate ].
        injection H as <-.
        destruct (proj1 IHe eq_refl) as [pre [db' [post [Heq [Hpre Hdb]]]]].
        exists (db :: pre), db', post; split; [ simpl; congruence | split; [ | exact Hdb ] ].
        intros d [<- | Hin]; [ eauto | auto ].
      * intros [pre [db' [post [Heq [Hpre Hdb]]]]].
        destruct pre as [| d pre]; simpl in Heq; inversion Heq; subst.
        -- congruence.
        -- assert (Hr : r = inl e)
             by (apply IHe; exists pre, db', post; split; [ reflexivity | split ];
                 [ intros d' Hd'; apply Hpre; right; exact Hd' | exact Hdb ]).
           subst r; reflexivity.
Qed.

Lemma all_databases_body_error : forall ps e,
  snd (all_databases_body extract_analysis_info_raw ps) = inl e <->
  (ps_Connect ps = inl e \/
  (ps_Connect ps = inr tt /\
   (ps_Databases ps = inl e \/
    (exists dbs, ps_Databases ps = inr dbs /\
      (coll_Count dbs = inl e \/
       ((exists n, coll_Count dbs = inr n) /\
        ((exists pre db post, coll_items dbs = (pre ++ db :: post)%list /\
            (forall d, In d pre -> exists nm, db_Name d = inr nm) /\
            db_Name db = inl e) \/
         ((forall d, In d (coll_items dbs) -> exists nm, db_Name d = inr nm) /\
          coll_iter_error dbs = Some e)))))))).
Proof.
  intros ps e; unfold all_databases_body.
  destruct (ps_Connect ps) as [e0|[]].
  { simpl; unfold raise; split;
      [ intros H; left; congruence | intros [H | [H _]]; [ congruence | discriminate ] ]. }
  destruct (ps_Databases ps) as [e0|dbs].
  { simpl; unfold raise; split.
    - intros H; right; split; [ reflexivity | left; congruence ].
    - intros [H | [_ [H | [dbs [H _]]]]]; [ discriminate | congruence | discriminate ]. }
  destruct (coll_Count dbs) as [e0|n] eqn:Hc.
  { simpl; unfold raise; split.
    - intros H; right; split; [ reflexivity | right; exists dbs ].
      split; [ reflexivity | left; congruence ].
    - intros [H | [_ [H | [dbs' [H [H' | [[n H'] _]]]]]]]; try discriminate;
        injection H as <-; congruence. }
  pose proof (databases_loop_error (coll_items dbs) e) as Herr.
  pose proof (databases_loop_ok (coll_items dbs)) as Hok.
  pose proof (databases_loop_spec (coll_items dbs)) as Hspec.
  destruct (databases_loop extract_analysis_info_raw (coll_items dbs)) as [log r].
  cbn [snd] in Herr, Hok, Hspec.
  destruct r as [e1|all].
  - simpl; unfold raise; split.
    + intros H; right; split; [ reflexivity | right; exists dbs ].
      split; [ reflexivity | right; split; [ eauto | left; apply Herr; exact H ] ].
    + intros [H | [_ [H | [dbs' [H [H' | [_ [Hpre | [Hall _]]]]]]]]]; try discriminate;
        injection H as <-.
      * congruence.
      * apply Herr; exact Hpre.
      * discriminate (Hspec Hall).
  - destruct (coll_iter_error dbs) as [e2|] eqn:Hi; simpl; unfold raise, ret.
    + split.
      * intros H; right; split; [ reflexivity | right; exists dbs ].
        split; [ reflexivity | right; split; [ eauto | right ] ].
        split; [ exact (Hok all eq_refl) | congruence ].
      * intros [H | [_ [H | [dbs' [H [H' | [_ [Hpre | [_ Hit]]]]]]]]]; try discriminate;
          injection H as <-.
        -- congruence.
        -- discriminate (proj2 Herr Hpre).
        -- congruence.
    + split; [ discriminate | ].
      intros [H | [_ [H | [dbs' [H [H' | [_ [Hpre | [_ Hit]]]]]]]]]; try discriminate;
        injection H as <-.
      * congruence.
      * discriminate (proj2 Herr Hpre).
      * congruence.
Qed.

End BatchTheorems.

(** C4 (code bug): a failing database name aborts the whole multi-database
    extraction.  [db_name = str(db.Name)] stands before the per-database
    [try], so when the first database's [Name] cannot be read the run raises
    and the next database, whose analysis extracts fine, is never processed. *)
Lemma extract_analyses_db_name_failure_aborts :
  ps_Connect name_failure_system = inr tt /\
  snd (extract_analyses_from_all_databases demo_extract (inr (Some name_failure_system)))
    = inl (SdkError "Name unavailable") /\
  db_successes demo_extract demo_database = [[("Name", PStr "ok"); ("Database", PStr "Plant")]].
Proof. split; [ reflexivity | split; reflexivity ]. Qed.

(** C4 (what the code does): per-item failures inside the per-database [try]
    and the per-point [try] are caught and the batch goes on.  In
    [extract_analyses_from_all_databases] (server connected, databases
    enumerated, every database name readable) a failing analysis is printed
    and left out, a database whose analyses collection fails is printed and
    left out, and the result is everything else.  The run raises [e] exactly
    when the server lookup raises [e], finds no server ([ValueError]), or,
    in this order, the connection, [Databases], [Count], the first unreadable
    database [Name] or the database enumerator raises [e].  In
    [extract_pi_points], a point whose extraction fails is printed and
    recorded with [name] and [error] (under the name "Unknown" when the point
    has no [Name]; left out when reading [Name] raises anything else), and
    the run raises [e] exactly when connection establishment or the point
    search raises [e]. *)
Theorem batch_extraction_continues :
  (forall extract ps dbs,
     ps_Connect ps = inr tt -> ps_Databases ps = inr dbs ->
     (exists n, coll_Count dbs = inr n) -> coll_iter_error dbs = None ->
     (forall db, In db (coll_items dbs) -> exists nm, db_Name db = inr nm) ->
     snd (extract_analyses_from_all_databases extract (inr (Some ps)))
       = inr (flat_map (db_successes extract) (coll_items dbs)) /\
     (forall db nm coll n a e,
        In db (coll_items dbs) -> db_Name db = inr nm ->
        db_Analyses db = inr coll -> coll_Count coll = inr n ->
        In a (coll_items coll) -> extract a nm = inl e ->
        In (LogAnalysisError e)
           (fst (extract_analyses_from_all_databases extract (inr (Some ps)))))) /\
  (forall extract lookup e,
     snd (extract_analyses_from_all_databases extract lookup) = inl e <->
     lookup = inl e \/ (lookup = inr None /\ e = ValueError) \/
     exists ps, lookup = inr (Some ps) /\
       (ps_Connect ps = inl e \/
          (ps_Connect ps = inr tt /\
           (ps_Databases ps = inl e \/
            (exists dbs, ps_Databases ps = inr dbs /\
              (coll_Count dbs = inl e \/
               ((exists n, coll_Count dbs = inr n) /\
                ((exists pre db post, coll_items dbs = (pre ++ db :: post)%list /\
                    (forall d, In d pre -> exists nm, db_Name d = inr nm) /\
                    db_Name db = inl e) \/
                 ((forall d, In d (coll_items dbs) -> exists nm, db_Name d = inr nm) /\
                  coll_iter_error dbs = Some e))))))))) /\
  (forall body conn pattern max_count points,
     search_points conn pattern max_count = inr points ->
     snd (extract_pi_points body (inr conn) pattern max_count)
       = inr (flat_map (point_outcome body) points) /\
     (forall point e, In point points -> body point = inl e ->
        In (LogPointError e) (fst (extract_pi_points body (inr conn) pattern max_count)))) /\
  (forall body connect pattern max_count e,
     snd (extract_pi_points body connect pattern max_count) = inl e <->
     connect = inl e \/
     exists conn, connect = inr conn /\ search_points conn pattern max_count = inl e).
Proof.
  split; [ | split; [ | split ] ].
  - intros extract ps dbs Hc Hd [n Hn] Hi Hnames.
    unfold extract_analyses_from_all_databases, all_databases_body.
    rewrite Hc, Hd, Hn.
    (* the per-database log, needed for the second half *)
    assert (Hlog : forall dbs' db nm coll n' a e,
              (forall db, In db dbs' -> exists nm, db_Name db = inr nm) ->
              In db dbs' -> db_Name db = inr nm ->
              db_Analyses db = inr coll -> coll_Count coll = inr n' ->
              In a (coll_items coll) -> extract a nm = inl e ->
              In (LogAnalysisError e) (fst (databases_loop extract dbs'))).
    { induction dbs' as [| d dbs' IH]; intros db nm coll n' a e Hns Hin Hnm Ha Hcn Hia He;
        [ destruct Hin | ].
      simpl; destruct (Hns d (or_introl eq_refl)) as [nd Hnd]; rewrite Hnd.
      destruct (databases_loop extract dbs') as [log2 r] eqn:Hdl.
      destruct Hin as [<- | Hin].
      - rewrite Hnm in Hnd; injection Hnd as <-.
        unfold database_body; rewrite Ha, Hcn.
        pose proof (proj2 (analyses_loop_spec extract nm (coll_items coll)) a e Hia He) as Hl.
        destruct (analyses_loop extract nm (coll_items coll)) as [log got].
        simpl in *; rewrite ?in_app_iff; simpl; rewrite ?in_app_iff; tauto.
      - assert (Hl := IH db nm coll n' a e (fun d' H => Hns d' (or_intror H))
                         Hin Hnm Ha Hcn Hia He).
        simpl in Hl.
        destruct (database_body extract nd d) as [[log1 got] err].
        simpl; rewrite ?in_app_iff; simpl; rewrite ?in_app_iff; tauto. }
    pose proof (databases_loop_spec extract (coll_items dbs) Hnames) as Hs.
    pose proof (Hlog (coll_items dbs)) as Hl.
    destruct (databases_loop extract (coll_items dbs)) as [log r] eqn:Hdl.
    simpl in Hs; subst r; rewrite Hi.
    split.
    + destruct (ps_Disconnect ps); reflexivity.
    + intros db nm coll n' a e Hin Hnm Ha Hcn Hia He.
      specialize (Hl db nm coll n' a e Hnames Hin Hnm Ha Hcn Hia He).
      simpl in Hl |- *.
      rewrite ?in_app_iff; simpl; rewrite ?in_app_iff; tauto.
  - intros extract lookup e; unfold extract_analyses_from_all_databases.
    destruct lookup as [e0|[ps|]].
    + simpl; unfold raise; split; [ intros H; left; congruence | ].
      intros [H | [[H _] | [ps [H _]]]]; [ congruence | discriminate | discriminate ].
    + pose proof (all_databases_body_error extract ps e) as HB.
      destruct (all_databases_body extract ps) as [log r]; cbn [snd] in HB |- *.
      split.
      * intros H; right; right; exists ps; split; [ reflexivity | apply HB; exact H ].
      * intros [H | [[H _] | [ps' [H HP]]]]; [ discriminate | discriminate | ].
        injection H as <-; apply HB; exact HP.
    + simpl; unfold raise; split.
      * intros H; right; left; split; [ reflexivity | congruence ].
      * intros [H | [[_ H] | [ps [H _]]]]; [ discriminate | subst; reflexivity | discriminate ].
  - intros body conn pattern max_count points Hs.
    unfold extract_pi_points; rewrite Hs.
    destruct (points_loop_spec body 0 (length points) points) as [H1 H2].
    destruct (points_loop body 0 (length points) points) as [log got].
    simpl in H1, H2 |- *; subst got.
    split; [ reflexivity | ].
    intros point e Hin Hb; right; right; eauto.
  - intros body connect pattern max_count e; unfold extract_pi_points.
    destruct connect as [e0|conn].
    + simpl; unfold raise; split; [ intros H; left; congruence | ].
      intros [H | [conn [H _]]]; [ congruence | discriminate ].
    + destruct (search_points conn pattern max_count) as [e0|points] eqn:Hs.
      * simpl; unfold raise; split.
        -- intros H; right; exists conn; split; [ reflexivity | congruence ].
        -- intros [H | [conn' [H H']]]; [ discriminate | injection H as <-; congruence ].
      * destruct (points_loop body 0 (length points) points); simpl; unfold ret.
        split; [ discriminate | ].
        intros [H | [conn' [H H']]]; [ discriminate | injection H as <-; congruence ].
Qed.

Lemma batch_extraction_continues_witness :
  snd (extract_analyses_from_all_databases demo_extract (inr (Some demo_system)))
    = inr [[("Name", PStr "ok"); ("Database", PStr "Plant")]] /\
  snd (extract_analyses_from_all_databases demo_extract (inr (Some name_failure_system)))
    = inl (SdkError "Name unavailable") /\
  snd (extract_pi_points (fun _ => inl (SdkError "boom")) (inr demo_conn) "*" 100000)
    = inr [[("name", PStr "TAG1"); ("error", PStr "boom")]] /\
  snd (extract_pi_points (fun _ => inr []) (inr failing_search_conn) "*" 100000)
    = inl (SdkError "search failed").
Proof.
  destruct batch_extraction_continues as [Ha [Hb [Hp Hd]]].
  split; [ | split; [ | split ] ].
  - destruct (Ha demo_extract demo_system
                (mkCollection (inr 1) [demo_database] None)
                eq_refl eq_refl (ex_intro _ 1 eq_refl) eq_refl
                ltac:(intros db [<- | []]; eexists; reflexivity)) as [H _].
    rewrite H; reflexivity.
  - apply (proj2 (Hb demo_extract (inr (Some name_failure_system)) (SdkError "Name unavailable"))).
    right; right; exists name_failure_system; split; [ reflexivity | ].
    right; split; [ reflexivity | right ].
    exists (mkCollection (inr 2) [nameless_database; demo_database] None).
    split; [ reflexivity | right; split; [ exists 2; reflexivity | left ] ].
    exists [], nameless_database, [demo_database].
    split; [ reflexivity | split; [ intros d [] | reflexivity ] ].
  - destruct (Hp (fun _ => inl (SdkError "boom")) demo_conn "*" 100000
                [mkPIPointObj (inr "TAG1")] eq_refl) as [H _].
    rewrite H; reflexivity.
  - apply (proj2 (Hd (fun _ => inr []) (inr failing_search_conn) "*" 100000
                    (SdkError "search failed"))).
    right; exists failing_search_conn; split; reflexivity.
Defined.

Lemma str_app_assoc : forall a b c : string, (a ++ b) ++ c = a ++ (b ++ c).
Proof. induction a as [| x a IH]; intros b c; simpl; [ reflexivity | now rewrite IH ]. Qed.

Lemma str_app_nil_r : forall a : string, a ++ "" = a.
Proof. induction a as [| x a IH]; simpl; [ reflexivity | now rewrite IH ]. Qed.

Lemma str_length_app : forall a b : string,
  String.length (a ++ b) = (String.length a + String.length b)%nat.
Proof. induction a as [| x a IH]; intros b; simpl; [ reflexivity | now rewrite IH ]. Qed.

Lemma str_drop_app : forall a b : string, str_drop (String.length a) (a ++ b) = b.
Proof. induction a as [| x a IH]; intros b; simpl; [ reflexivity | apply IH ]. Qed.

Lemma str_drop_length : forall n s,
  String.length (str_drop n s) = (String.length s - n)%nat.
Proof.
  induction n as [| n IH]; intros [| x s]; simpl; try reflexivity.
  apply IH.
Qed.

Lemma str_get_drop : forall i k s, String.get k (str_drop i s) = String.get (i + k) s.
Proof.
  induction i as [| i IH]; intros k [| x s]; simpl; try reflexivity.
  apply IH.
Qed.

Lemma str_prefixb_app : forall p t, str_prefixb p (p ++ t) = true.
Proof.
  induction p as [| x p IH]; intros t; simpl; [ reflexivity | ].
  rewrite Ascii.eqb_refl, IH; reflexivity.
Qed.

Lemma str_prefixb_get : forall p s, str_prefixb p s = true ->
  forall k c, String.get k p = Some c -> String.get k s = Some c.
Proof.
  induction p as [| x p IH]; intros s H k c Hk; [ discriminate Hk | ].
  destruct s as [| y s]; simpl in H; [ discriminate | ].
  apply andb_prop in H as [Hxy H]; apply Ascii.eqb_eq in Hxy; subst y.
  destruct k as [| k]; simpl in *; [ exact Hk | exact (IH s H k c Hk) ].
Qed.

Lemma str_get_app_lt : forall a b k,
  (k < String.length a)%nat -> String.get k (a ++ b) = String.get k a.
Proof.
  induction a as [| x a IH]; intros b k Hk; simpl in *; [ lia | ].
  destruct k; [ reflexivity | apply IH; lia ].
Qed.

Lemma str_get_app_ge : forall a b k,
  String.get (String.length a + k) (a ++ b) = String.get k b.
Proof. induction a as [| x a IH]; intros b k; simpl; [ reflexivity | apply IH ]. Qed.

Lemma contains1_get : forall c s,
  str_contains (String c EmptyString) s = false -> forall k, String.get k s <> Some c.
Proof.
  intros c; induction s as [| x s IH]; intros H k; simpl; [ discriminate | ].
  simpl in H; apply orb_false_iff in H as [H1 H2].
  rewrite andb_true_r in H1.
  destruct k as [| k]; [ | apply IH; exact H2 ].
  intros Hx; injection Hx as ->; rewrite Ascii.eqb_refl in H1; discriminate.
Qed.

Lemma contains1_app : forall c a b,
  str_contains (String c EmptyString) (a ++ b) =
  str_contains (String c EmptyString) a || str_contains (String c EmptyString) b.
Proof.
  intros c; induction a as [| x a IH]; intros b; simpl.
  - destruct b; reflexivity.
  - rewrite IH, orb_assoc; reflexivity.
Qed.

Lemma contains_exists : forall sub s, str_contains sub s = true ->
  exists i, str_prefixb sub (str_drop i s) = true.
Proof.
  intros sub; induction s as [| x s IH]; intros H; simpl in H.
  - exists O; rewrite orb_false_r in H; exact H.
  - apply orb_prop in H as [H | H]; [ exists O; exact H | ].
    destruct (IH H) as [i Hi]; exists (S i); exact Hi.
Qed.

Lemma contains_prefix : forall sub s,
  str_prefixb sub s = true -> str_contains sub s = true.
Proof. intros sub [| x s] H; simpl; rewrite H; reflexivity. Qed.

Lemma contains_prefix_app : forall sub a b,
  str_prefixb sub b = true -> str_contains sub (a ++ b) = true.
Proof.
  intros sub; induction a as [| x a IH]; intros b H; simpl.
  - apply contains_prefix, H.
  - rewrite IH by exact H; apply orb_true_r.
Qed.

(** A string without the character [c] contains no string that has it. *)
Lemma contains_char_free : forall c sub s k,
  str_contains (String c EmptyString) s = false ->
  String.get k sub = Some c -> str_contains sub s = false.
Proof.
  intros c sub s k Hs Hk.
  destruct (str_contains sub s) eqn:E; [ | reflexivity ].
  destruct (contains_exists _ _ E) as [i Hi].
  pose proof (str_prefixb_get _ _ Hi k c Hk) as Hg.
  rewrite str_get_drop in Hg.
  exfalso; exact (contains1_get c s Hs _ Hg).
Qed.

Lemma str_prefixb_length : forall p s, str_prefixb p s = true ->
  (String.length p <= String.length s)%nat.
Proof.
  induction p as [| x p IH]; intros [| y s] H; simpl in *; try lia; try discriminate.
  apply andb_prop in H as [_ H]; specialize (IH s H); lia.
Qed.

Lemma split_go_fuel : forall f1 f2 sep s cur, sep <> EmptyString ->
  (String.length s < f1)%nat -> (String.length s < f2)%nat ->
  split_go f1 sep s cur = split_go f2 sep s cur.
Proof.
  induction f1 as [| f1 IH]; intros f2 sep s cur Hsep H1 H2; [ lia | ].
  destruct f2 as [| f2]; [ lia | ]; simpl.
  destruct (str_prefixb sep s) eqn:Hp.
  - assert (Hl : (0 < String.length sep)%nat)
      by (destruct sep; [ congruence | simpl; lia ]).
    pose proof (str_prefixb_length _ _ Hp).
    f_equal; apply IH; [ exact Hsep | | ]; rewrite str_drop_length; lia.
  - destruct s as [| a s]; [ reflexivity | ].
    simpl in H1, H2; apply IH; [ exact Hsep | lia | lia ].
Qed.

(** Reading past a stretch [a] where no occurrence of [sep] starts. *)
Lemma split_go_skip : forall sep a b cur f, sep <> EmptyString ->
  (String.length (a ++ b) < f)%nat ->
  (forall i, (i < String.length a)%nat -> str_prefixb sep (str_drop i (a ++ b)) = false) ->
  split_go f sep (a ++ b) cur = split_go (S (String.length b)) sep b (cur ++ a).
Proof.
  intros sep; induction a as [| x a IH]; intros b cur f Hsep Hf Hno.
  - change (EmptyString ++ b) with b in *; rewrite str_app_nil_r.
    apply split_go_fuel; auto.
  - destruct f as [| f]; [ simpl in Hf; lia | ].
    pose proof (Hno O ltac:(simpl; lia)) as H0; simpl in H0.
    simpl; rewrite H0.
    rewrite IH; [ | exact Hsep | simpl in Hf; lia | ].
    + rewrite str_app_assoc; reflexivity.
    + intros i Hi; apply (Hno (S i)); simpl; lia.
Qed.

Lemma split_go_S : forall f sep s cur, split_go (S f) sep s cur =
  if str_prefixb sep s then cur :: split_go f sep (str_drop (String.length sep) s) ""
  else match s with
       | EmptyString => [cur]
       | String a s' => split_go f sep s' (cur ++ String a EmptyString)
       end.
Proof. reflexivity. Qed.

Lemma split_go_match : forall sep t cur, sep <> EmptyString ->
  split_go (S (String.length (sep ++ t))) sep (sep ++ t) cur
  = cur :: split_go (S (String.length t)) sep t "".
Proof.
  intros sep t cur Hsep; rewrite split_go_S, str_prefixb_app, str_drop_app.
  f_equal; apply split_go_fuel; [ exact Hsep | | lia ].
  rewrite str_length_app; destruct sep; [ congruence | simpl; lia ].
Qed.

Lemma split_go_noocc : forall sep s cur f, sep <> EmptyString ->
  str_contains sep s = false -> (String.length s < f)%nat ->
  split_go f sep s cur = [cur ++ s].
Proof.
  intros sep; induction s as [| a s IH]; intros cur f Hsep Hc Hf;
    (destruct f as [| f]; [ simpl in Hf; lia | ]); simpl in Hc |- *.
  - rewrite orb_false_r in Hc; rewrite Hc, str_app_nil_r; reflexivity.
  - apply orb_false_iff in Hc as [Hp Hc]; rewrite Hp.
    rewrite IH; [ | exact Hsep | exact Hc | simpl in Hf; lia ].
    rewrite str_app_assoc; reflexivity.
Qed.

Lemma split_go_head : forall f sep s cur,
  exists y rest, split_go f sep s cur = (cur ++ y) :: rest.
Proof.
  induction f as [| f IH]; intros sep s cur; simpl.
  - exists s, []; reflexivity.
  - destruct (str_prefixb sep s).
    + exists "", (split_go f sep (str_drop (String.length sep) s) "").
      rewrite str_app_nil_r; reflexivity.
    + destruct s as [| a s].
      * exists "", []; rewrite str_app_nil_r; reflexivity.
      * destruct (IH sep s (cur ++ String a EmptyString)) as [y [rest H]].
        exists (String a y), rest; rewrite H, str_app_assoc; reflexivity.
Qed.

(** The parts of a split on one character never contain it. *)
Lemma split_go_parts_free : forall c f s cur part,
  (String.length s < f)%nat ->
  str_contains (String c EmptyString) cur = false ->
  In part (split_go f (String c EmptyString) s cur) ->
  str_contains (String c EmptyString) part = false.
Proof.
  intros c; induction f as [| f IH]; intros s cur part Hf Hcur Hin; [ lia | ].
  simpl in Hin.
  destruct s as [| a s].
  - simpl in Hin; destruct Hin as [<- | []]; exact Hcur.
  - simpl in Hin |- *. rewrite andb_true_r in Hin.
    destruct (Ascii.eqb c a) eqn:Hca.
    + destruct Hin as [<- | Hin]; [ exact Hcur | ].
      apply (IH s ""); [ simpl in Hf; lia | reflexivity | exact Hin ].
    + apply (IH s (cur ++ String a EmptyString)); [ simpl in Hf; lia | | exact Hin ].
      rewrite contains1_app, Hcur; simpl; rewrite Hca; reflexivity.
Qed.

Lemma split_go_two : forall sep s cur f, sep <> EmptyString ->
  str_contains sep s = true -> (String.length s < f)%nat ->
  (2 <= length (split_go f sep s cur))%nat.
Proof.
  intros sep; induction s as [| a s IH]; intros cur f Hsep Hc Hf;
    (destruct f as [| f]; [ simpl in Hf; lia | ]).
  - simpl in Hc |- *; rewrite orb_false_r in Hc; rewrite Hc; simpl.
    destruct (split_go_head f sep (str_drop (String.length sep) "") "") as [y [rest ->]].
    simpl; lia.
  - simpl in Hc |- *; destruct (str_prefixb sep (String a s)) eqn:Hp.
    + destruct (split_go_head f sep (str_drop (String.length sep) (String a s)) "")
        as [y [rest ->]].
      simpl; lia.
    + simpl in Hc; apply IH; [ exact Hsep | exact Hc | simpl in Hf; lia ].
Qed.

Lemma lstrip_char_app : forall c a b,
  lstrip_char c (a ++ b) =
  match lstrip_char c a with EmptyString => lstrip_char c b | s => s ++ b end.
Proof.
  intros c; induction a as [| x a IH]; intros b; simpl; [ reflexivity | ].
  destruct (Ascii.eqb x c); [ apply IH | reflexivity ].
Qed.

Lemma str_rev_app : forall a b, str_rev (a ++ b) = str_rev b ++ str_rev a.
Proof.
  induction a as [| x a IH]; intros b; simpl.
  - rewrite str_app_nil_r; reflexivity.
  - rewrite IH, str_app_assoc; reflexivity.
Qed.

Lemma str_rev_involutive : forall s, str_rev (str_rev s) = s.
Proof.
  induction s as [| x s IH]; simpl; [ reflexivity | ].
  rewrite str_rev_app, IH; reflexivity.
Qed.

Lemma strip_char_cons : forall c s, strip_char c (String c s) = strip_char c s.
Proof. intros c s; unfold strip_char; simpl; rewrite Ascii.eqb_refl; reflexivity. Qed.

Lemma strip_char_snoc : forall c s,
  strip_char c (s ++ String c EmptyString) = strip_char c s.
Proof.
  intros c s; unfold strip_char; rewrite lstrip_char_app.
  destruct (lstrip_char c s) as [| a t] eqn:E.
  - simpl; rewrite Ascii.eqb_refl; reflexivity.
  - rewrite str_rev_app.
    change (str_rev (String c EmptyString) ++ str_rev (String a t))
      with (String c (str_rev (String a t))).
    cbn [lstrip_char]; rewrite Ascii.eqb_refl; reflexivity.
Qed.

(** Stripping [c] from the right of [x ++ t] when [x] ends in another character. *)
Lemma rstrip_app : forall c x y t,
  Ascii.eqb y c = false ->
  str_rev (lstrip_char c (str_rev ((x ++ String y EmptyString) ++ t))) =
  (x ++ String y EmptyString) ++ str_rev (lstrip_char c (str_rev t)).
Proof.
  intros c x y t Hy.
  rewrite (str_rev_app (x ++ String y EmptyString) t), (str_rev_app x (String y EmptyString)).
  change (str_rev (String y EmptyString) ++ str_rev x) with (String y (str_rev x)).
  rewrite lstrip_char_app.
  destruct (lstrip_char c (str_rev t)) as [| a u] eqn:E.
  - cbn [lstrip_char]; rewrite Hy.
    change (str_rev (String y (str_rev x))) with (str_rev (str_rev x) ++ String y EmptyString).
    rewrite str_rev_involutive, str_app_nil_r; reflexivity.
  - rewrite (str_rev_app (String a u) (String y (str_rev x))).
    change (str_rev (String y (str_rev x))) with (str_rev (str_rev x) ++ String y EmptyString).
    rewrite str_rev_involutive; reflexivity.
Qed.

Lemma str_last_exists : forall s, s <> EmptyString ->
  exists x y, s = x ++ String y EmptyString.
Proof.
  induction s as [| a s IH]; intros H; [ congruence | ].
  destruct s as [| b s].
  - exists EmptyString, a; reflexivity.
  - destruct (IH ltac:(discriminate)) as [x [y Hxy]].
    exists (String a x), y; rewrite Hxy; reflexivity.
Qed.

Lemma nocontains1_get_last : forall c x y,
  str_contains (String c EmptyString) (x ++ String y EmptyString) = false ->
  Ascii.eqb y c = false.
Proof.
  intros c x y H; rewrite contains1_app in H; apply orb_false_iff in H as [_ H].
  simpl in H; rewrite andb_true_r, orb_false_r in H.
  destruct (Ascii.eqb_spec y c); [ subst; rewrite Ascii.eqb_refl in H; discriminate | reflexivity ].
Qed.

(** No occurrence of a one-character separator starts inside a stretch free of it. *)
Lemma no_prefix_in_free : forall c a b i,
  str_contains (String c EmptyString) a = false -> (i < String.length a)%nat ->
  str_prefixb (String c EmptyString) (str_drop i (a ++ b)) = false.
Proof.
  intros c a b i Ha Hi.
  destruct (str_prefixb _ _) eqn:E; [ | reflexivity ].
  pose proof (str_prefixb_get _ _ E O c eq_refl) as G.
  rewrite str_get_drop, str_get_app_lt in G by lia.
  exfalso; apply (contains1_get c a Ha (i + 0) G).
Qed.

(** Cutting off one part: [a] up to the first separator [c]. *)
Lemma split_chunk : forall c a t cur,
  str_contains (String c EmptyString) a = false ->
  split_go (S (String.length (a ++ String c t))) (String c EmptyString)
    (a ++ String c t) cur
  = (cur ++ a) :: split_go (S (String.length t)) (String c EmptyString) t "".
Proof.
  intros c a t cur Ha.
  rewrite split_go_skip; [ | discriminate | lia | ].
  - apply (split_go_match (String c EmptyString) t (cur ++ a)); discriminate.
  - intros i Hi; apply no_prefix_in_free; assumption.
Qed.

Lemma split_last : forall c a cur,
  str_contains (String c EmptyString) a = false ->
  split_go (S (String.length a)) (String c EmptyString) a cur = [cur ++ a].
Proof. intros c a cur Ha; apply split_go_noocc; [ discriminate | exact Ha | lia ]. Qed.

Lemma py_split_parts_free : forall c s part,
  In part (py_split (String c EmptyString) s) ->
  str_contains (String c EmptyString) part = false.
Proof.
  intros c s part Hin; unfold py_split in Hin.
  apply (split_go_parts_free c (S (String.length s)) s ""); [ lia | reflexivity | exact Hin ].
Qed.

Lemma nth_free : forall c parts n,
  (forall p, In p parts -> str_contains (String c EmptyString) p = false) ->
  str_contains (String c EmptyString) (nth n parts "") = false.
Proof.
  intros c parts n H.
  destruct (nth_in_or_default n parts "") as [Hin | ->]; [ apply H, Hin | reflexivity ].
Qed.

Lemma rstrip_sep : forall c r,
  str_rev (lstrip_char c (str_rev (String c r))) = EmptyString \/
  exists r', str_rev (lstrip_char c (str_rev (String c r))) = String c r'.
Proof.
  intros c r; cbn [str_rev]; rewrite lstrip_char_app.
  destruct (lstrip_char c (str_rev r)) as [| a u].
  - left; simpl; rewrite Ascii.eqb_refl; reflexivity.
  - right; rewrite str_rev_app; simpl; eexists; reflexivity.
Qed.

Lemma lstrip_char_free_start : forall c s t,
  s <> EmptyString -> str_contains (String c EmptyString) s = false ->
  lstrip_char c (s ++ t) = s ++ t.
Proof.
  intros c [| a s] t Hs H; [ congruence | ].
  simpl in H |- *; rewrite andb_true_r in H; apply orb_false_iff in H as [H _].
  rewrite Ascii.eqb_sym, H; reflexivity.
Qed.

(** Plant name from a four-level path: for a path [\\srv\db\cat\plant] optionally followed by further [\]-separated levels, with a nonempty server and plant and no backslash inside the four components, [extract_plant_name] returns the fourth component. *)
Lemma extract_plant_name_four : forall srv db cat plant tail,
  srv <> "" -> plant <> "" ->
  Forall (fun x => str_contains "\" x = false) [srv; db; cat; plant] ->
  (tail = "" \/ exists r, tail = "\" ++ r) ->
  extract_plant_name
    ("\\" ++ srv ++ "\" ++ db ++ "\" ++ cat ++ "\" ++ plant ++ tail) = Some plant.
Proof.
  intros srv db cat plant tail Hsrv Hpl Hfree Htail.
  inversion Hfree as [| ? ? Fs Hfree1]; inversion Hfree1 as [| ? ? Fd Hfree2];
    inversion Hfree2 as [| ? ? Fc Hfree3]; inversion Hfree3 as [| ? ? Fp _]; subst.
  destruct (str_last_exists plant Hpl) as [px [y Hxy]].
  pose proof (nocontains1_get_last _ _ _ (eq_ind _ (fun p => str_contains _ p = false) Fp _ Hxy)) as Hy.
  set (body := srv ++ "\" ++ db ++ "\" ++ cat ++ "\" ++ plant).
  assert (Hb : "\\" ++ srv ++ "\" ++ db ++ "\" ++ cat ++ "\" ++ plant ++ tail
               = String "\" (String "\" (body ++ tail)))
    by (unfold body; rewrite !str_app_assoc; reflexivity).
  rewrite Hb; unfold extract_plant_name; cbn [String.eqb].
  rewrite !strip_char_cons; unfold strip_char.
  assert (Hl : lstrip_char "\" (body ++ tail) = body ++ tail)
    by (unfold body; rewrite !str_app_assoc; apply lstrip_char_free_start; assumption).
  rewrite Hl.
  assert (Hb2 : body = (srv ++ "\" ++ db ++ "\" ++ cat ++ "\" ++ px) ++ String y EmptyString)
    by (unfold body; rewrite Hxy, !str_app_assoc; reflexivity).
  assert (Hsp : forall T, (T = "" \/ exists r, T = String "\" r) ->
    py_split "\" (body ++ T) = srv :: db :: cat :: plant ::
      match T with EmptyString => [] | String _ r => py_split "\" r end).
  { intros T HT; unfold py_split.
    assert (HE : body ++ T = srv ++ String "\" (db ++ String "\" (cat ++ String "\" (plant ++ T))))
      by (unfold body; rewrite !str_app_assoc; reflexivity).
    rewrite HE, split_chunk by exact Fs; f_equal.
    rewrite split_chunk by exact Fd; f_equal.
    rewrite split_chunk by exact Fc; f_equal.
    destruct HT as [-> | [r ->]].
    - rewrite str_app_nil_r, split_last by exact Fp; reflexivity.
    - rewrite split_chunk by exact Fp; reflexivity. }
  rewrite Hb2, rstrip_app by exact Hy; rewrite <- Hb2.
  destruct Htail as [-> | [r ->]].
  - cbn [str_rev lstrip_char].
    rewrite (Hsp "") by (left; reflexivity); reflexivity.
  - destruct (rstrip_sep "\" r) as [E | [r' E]]; change ("\" ++ r) with (String "\" r);
      rewrite E.
    + rewrite (Hsp "") by (left; reflexivity); reflexivity.
    + rewrite (Hsp (String "\" r')) by (right; eexists; reflexivity); reflexivity.
Qed.

(** Plant name from a three-level path: for [\\srv\db\cat] with a nonempty server and category and no backslash inside the components, [extract_plant_name] falls back to the third component. *)
Lemma extract_plant_name_three : forall srv db cat,
  srv <> "" -> cat <> "" ->
  Forall (fun x => str_contains "\" x = false) [srv; db; cat] ->
  extract_plant_name ("\\" ++ srv ++ "\" ++ db ++ "\" ++ cat) = Some cat.
Proof.
  intros srv db cat Hsrv Hcat Hfree.
  inversion Hfree as [| ? ? Fs Hfree1]; inversion Hfree1 as [| ? ? Fd Hfree2];
    inversion Hfree2 as [| ? ? Fc _]; subst.
  destruct (str_last_exists cat Hcat) as [cx [y Hxy]].
  pose proof (nocontains1_get_last _ _ _ (eq_ind _ (fun p => str_contains _ p = false) Fc _ Hxy)) as Hy.
  rewrite <- (str_app_nil_r (srv ++ "\" ++ db ++ "\" ++ cat)).
  set (body := srv ++ "\" ++ db ++ "\" ++ cat).
  change ("\\" ++ body ++ "") with (String "\" (String "\" (body ++ ""))). unfold extract_plant_name; cbn [String.eqb].
  rewrite !strip_char_cons; unfold strip_char.
  assert (Hl : lstrip_char "\" (body ++ "") = body ++ "")
    by (unfold body; rewrite !str_app_assoc; apply lstrip_char_free_start; assumption).
  rewrite Hl.
  assert (Hb2 : body = (srv ++ "\" ++ db ++ "\" ++ cx) ++ String y EmptyString)
    by (unfold body; rewrite Hxy, !str_app_assoc; reflexivity).
  rewrite Hb2, rstrip_app by exact Hy; rewrite <- Hb2.
  cbn [str_rev lstrip_char]; rewrite str_app_nil_r.
  assert (Hsp : py_split "\" body = [srv; db; cat]).
  { unfold py_split.
    assert (HE : body = srv ++ String "\" (db ++ String "\" cat)) by reflexivity.
    rewrite HE, split_chunk by exact Fs; f_equal.
    rewrite split_chunk by exact Fd; f_equal.
    rewrite split_last by exact Fc; reflexivity. }
  rewrite Hsp; reflexivity.
Qed.

(** A plant name returned by [extract_plant_name] never contains a backslash: it is always one of the separator-free parts of the split path. *)
Lemma extract_plant_name_no_backslash : forall element_path name,
  extract_plant_name element_path = Some name -> str_contains "\" name = false.
Proof.
  intros p name H; unfold extract_plant_name in H.
  destruct (String.eqb p ""); [ discriminate | ].
  set (parts := py_split "\" (strip_char "\" p)) in H.
  assert (Hf : forall n, str_contains "\" (nth n parts "") = false)
    by (intros n; apply nth_free; intros q Hq; exact (py_split_parts_free _ _ _ Hq)).
  destruct (Nat.leb 4 (length parts)); [ injection H as <-; apply Hf | ].
  destruct (Nat.leb 3 (length parts)); [ injection H as <-; apply Hf | discriminate ].
Qed.

(** [extract_plant_name] ignores one extra leading or trailing backslash: the path is stripped of backslashes before it is split. *)
Lemma extract_plant_name_surrounding : forall element_path,
  extract_plant_name (String "\" element_path) = extract_plant_name element_path /\
  extract_plant_name (element_path ++ "\") = extract_plant_name element_path.
Proof.
  intros p; split.
  - unfold extract_plant_name; rewrite strip_char_cons.
    destruct p as [| a p]; [ reflexivity | reflexivity ].
  - unfold extract_plant_name; rewrite strip_char_snoc.
    destruct p as [| a p]; [ reflexivity | reflexivity ].
Qed.

Lemma ascii_lower_idem : forall c, ascii_lower (ascii_lower c) = ascii_lower c.
Proof.
  intros [[] [] [] [] [] [] [] []]; vm_compute; reflexivity.
Qed.

Lemma py_lower_idem : forall s, py_lower (py_lower s) = py_lower s.
Proof. induction s as [| c s IH]; simpl; [ reflexivity | now rewrite ascii_lower_idem, IH ]. Qed.

Lemma py_lower_empty : forall s, String.eqb (py_lower s) "" = String.eqb s "".
Proof. intros [| c s]; reflexivity. Qed.

(** [determine_plant_category] is case-insensitive: two element paths with the same lower-case form get the same category. *)
Lemma determine_plant_category_lower : forall p q,
  py_lower p = py_lower q -> determine_plant_category p = determine_plant_category q.
Proof.
  intros p q H; unfold determine_plant_category.
  rewrite <- (py_lower_empty p), <- (py_lower_empty q), H; reflexivity.
Qed.

Lemma determine_plant_category_lower_witness :
  py_lower "HYDRO" = py_lower "hydro" /\
  determine_plant_category "HYDRO" = determine_plant_category "hydro".
Proof. split; [ vm_compute; reflexivity | apply determine_plant_category_lower; vm_compute; reflexivity ]. Defined.

(** ** Event-frame template name *)

Lemma contains_nonempty : forall sub s, sub <> EmptyString ->
  str_contains sub s = true -> s <> EmptyString.
Proof.
  intros [| a sub] s Hs H; [ congruence | ]; intros ->; discriminate H.
Qed.

(** For a present configuration string, [event_frame_template_name] returns None exactly when the string does not contain [EFTNAME=]. *)
Lemma event_frame_template_name_none : forall s,
  event_frame_template_name (Some s) = None <-> str_contains "EFTNAME=" s = false.
Proof.
  intros s; unfold event_frame_template_name; split.
  - destruct (str_contains "EFTNAME=" s) eqn:Hc; [ | reflexivity ].
    assert (Hne := contains_nonempty "EFTNAME=" s ltac:(discriminate) Hc).
    destruct (String.eqb_spec s ""); [ contradiction | ]; simpl.
    unfold py_split.
    pose proof (split_go_two "EFTNAME=" s "" (S (String.length s)) ltac:(discriminate) Hc ltac:(lia)).
    destruct (Nat.ltb_spec 1 (length (split_go (S (String.length s)) "EFTNAME=" s "")));
      [ discriminate | lia ].
  - intros ->; rewrite andb_false_r; reflexivity.
Qed.

Lemma py_split_head_in : forall sep s, In (nth 0 (py_split sep s) "") (py_split sep s).
Proof.
  intros sep s; unfold py_split.
  destruct (split_go_head (S (String.length s)) sep s "") as [y [rest ->]].
  left; reflexivity.
Qed.

(** A template name returned by [event_frame_template_name] never contains a semicolon: it is the first [;]-separated part after [EFTNAME=]. *)
Lemma event_frame_template_name_no_semicolon : forall config_str name,
  event_frame_template_name config_str = Some name -> str_contains ";" name = false.
Proof.
  intros [s |] name H; [ | discriminate ]; unfold event_frame_template_name in H.
  destruct (_ && _); [ | discriminate ].
  destruct (Nat.ltb _ _); [ | discriminate ].
  injection H as <-.
  apply py_split_parts_free with (c := ";"%char) (s := nth 1 (py_split "EFTNAME=" s) "").
  apply py_split_head_in.
Qed.

Lemma str_get_ge : forall s k, (String.length s <= k)%nat -> String.get k s = None.
Proof.
  induction s as [| a s IH]; intros k Hk; [ reflexivity | ].
  destruct k as [| k]; simpl in *; [ lia | apply IH; lia ].
Qed.

Lemma str_get_lt : forall s k, (k < String.length s)%nat -> exists c, String.get k s = Some c.
Proof.
  induction s as [| a s IH]; intros k Hk; simpl in *; [ lia | ].
  destruct k as [| k]; [ eexists; reflexivity | apply IH; lia ].
Qed.

Lemma prefix_at : forall p s i k, str_prefixb p (str_drop i s) = true ->
  (k < String.length p)%nat -> String.get (i + k) s = String.get k p.
Proof.
  intros p s i k H Hk.
  destruct (str_get_lt p k Hk) as [c Hc]; rewrite Hc, <- str_get_drop.
  exact (str_prefixb_get _ _ H k c Hc).
Qed.

Lemma eftname_no_early_match : forall pre x i,
  str_contains "=" pre = false -> (i < String.length pre)%nat ->
  str_prefixb "EFTNAME=" (str_drop i (pre ++ "EFTNAME=" ++ x)) = false.
Proof.
  intros pre x i Hpre Hi.
  destruct (str_prefixb _ _) eqn:H; [ exfalso | reflexivity ].
  pose proof (prefix_at _ _ _ 7 H ltac:(simpl; lia)) as G; simpl in G.
  destruct (Nat.ltb_spec (i + 7) (String.length pre)) as [Hlt | Hge].
  - rewrite str_get_app_lt in G by exact Hlt.
    exact (contains1_get _ _ Hpre _ G).
  - replace (i + 7)%nat with (String.length pre + (i + 7 - String.length pre))%nat in G by lia.
    rewrite str_get_app_ge in G.
    assert (Hk : (i + 7 - String.length pre < 7)%nat) by lia.
    revert G Hk; generalize (i + 7 - String.length pre)%nat as k; intros k G Hk.
    do 7 (destruct k as [| k]; [ discriminate G | ]); lia.
Qed.

Lemma eftname_no_match_in_name : forall name rest i,
  str_contains "=" name = false ->
  (rest = "" \/ exists r, rest = ";" ++ r) -> (i < String.length name)%nat ->
  str_prefixb "EFTNAME=" (str_drop i (name ++ rest)) = false.
Proof.
  intros name rest i Hn Hr Hi.
  destruct (str_prefixb _ _) eqn:H; [ exfalso | reflexivity ].
  pose proof (prefix_at _ _ _ 7 H ltac:(simpl; lia)) as G; simpl in G.
  destruct (Nat.ltb_spec (i + 7) (String.length name)) as [Hlt | Hge].
  - rewrite str_get_app_lt in G by exact Hlt.
    exact (contains1_get _ _ Hn _ G).
  - destruct Hr as [-> | [r ->]].
    + rewrite str_app_nil_r, str_get_ge in G by exact Hge; discriminate G.
    + pose proof (prefix_at _ _ _ (String.length name - i) H ltac:(simpl; lia)) as G2.
      replace (i + (String.length name - i))%nat with (String.length name + 0)%nat in G2 by lia.
      rewrite str_get_app_ge in G2; simpl in G2.
      assert (Hk : (String.length name - i < 8)%nat) by lia.
      revert G2 Hk; generalize (String.length name - i)%nat as k; intros k G2 Hk.
      do 8 (destruct k as [| k]; [ discriminate G2 | ]); lia.
Qed.

(** Round trip: writing [EFTNAME=name] into a configuration string, after a prefix without [=] and followed by nothing or by [;] and further settings, lets [event_frame_template_name] read back exactly [name], provided the name contains neither [;] nor [=]. *)
Lemma event_frame_template_name_roundtrip : forall pre name rest,
  str_contains "=" pre = false ->
  str_contains ";" name = false -> str_contains "=" name = false ->
  (rest = "" \/ exists r, rest = ";" ++ r) ->
  event_frame_template_name (Some (pre ++ "EFTNAME=" ++ name ++ rest)) = Some name.
Proof.
  intros pre name rest Hpre Hsc Heq Hr.
  set (s := pre ++ "EFTNAME=" ++ name ++ rest).
  assert (Hc : str_contains "EFTNAME=" s = true)
    by (apply contains_prefix_app, str_prefixb_app).
  assert (Hne := contains_nonempty "EFTNAME=" s ltac:(discriminate) Hc).
  assert (Hparts : exists tl ys, py_split "EFTNAME=" s = pre :: tl /\
            py_split ";" (nth 0 tl "") = name :: ys).
  { unfold py_split, s.
    rewrite split_go_skip; [ | discriminate | lia | ].
    2: { intros i Hi; apply eftname_no_early_match; assumption. }
    rewrite split_go_match by discriminate.
    rewrite split_go_skip; [ | discriminate | lia | ].
    2: { intros i Hi; apply eftname_no_match_in_name; assumption. }
    destruct Hr as [-> | [r ->]].
    - eexists; exists []; split; [ reflexivity | ].
      transitivity (py_split ";" name); [ reflexivity | ].
      unfold py_split; rewrite split_last by exact Hsc; reflexivity.
    - change (";" ++ r) with (String ";" r).
      rewrite split_go_S.
      assert (Hf : str_prefixb "EFTNAME=" (String ";" r) = false) by reflexivity.
      rewrite Hf; cbv iota beta.
      change ("" ++ name) with name.
      destruct (split_go_head (String.length (String ";" r)) "EFTNAME=" r (name ++ ";")) as [y [tl ->]].
      eexists; eexists; split; [ reflexivity | ].
      transitivity (py_split ";" (name ++ String ";" y));
        [ simpl nth; rewrite str_app_assoc; reflexivity | ].
      unfold py_split; rewrite (split_chunk ";" name y "") by exact Hsc; reflexivity. }
  destruct Hparts as [tl [ys [Hp Hh]]].
  unfold event_frame_template_name.
  destruct (String.eqb_spec s ""); [ contradiction | ]; rewrite Hc, Hp; cbn [negb andb].
  destruct tl as [| t tl]; simpl in Hh.
  - pose proof (split_go_two "EFTNAME=" s "" (S (String.length s)) ltac:(discriminate) Hc
      ltac:(lia)) as H2.
    unfold py_split in Hp; rewrite Hp in H2; simpl in H2; lia.
  - cbn [length Nat.ltb Nat.leb nth]; rewrite Hh; reflexivity.
Qed.

Lemma event_frame_template_name_roundtrip_witness :
  event_frame_template_name (Some ("TRIGGER" ++ "EFTNAME=" ++ "Trip" ++ ";X=1")) = Some "Trip".
Proof.
  apply event_frame_template_name_roundtrip; [ vm_compute; reflexivity .. | ].
  right; exists "X=1"; reflexivity.
Defined.

Lemma convert_value_error : forall a e, _convert_value a = inl e ->
  exists o, Value a = PNet o /\ net_Name o = None /\ net_float o = inl e /\
            e <> ValueError /\ e <> TypeError.
Proof.
  intros [[ts] v ig sub] e H; unfold _convert_value in H; simpl in H.
  destruct v as [ | b | z | q | s | xs | en | o ]; simpl in H; try discriminate.
  destruct (net_Name o) eqn:Hn; simpl in H; [ discriminate | ].
  destruct (net_float o) as [e' | q] eqn:Hf; simpl in H; [ | discriminate ].
  destruct e'; simpl in H; try discriminate; injection H as <-;
    exists o; repeat split; auto; discriminate.
Qed.

Lemma map_convert_spec : forall vs,
  match map_result _convert_value vs with
  | inr ws => Forall2 (fun v w => timestamp w = LocalTime (Timestamp v) /\
                                  quality w = _convert_quality v) vs ws
  | inl e => exists pre a post ws, vs = app pre (a :: post) /\
               map_result _convert_value pre = inr ws /\ _convert_value a = inl e
  end.
Proof.
  induction vs as [| v vs IH]; simpl; [ constructor | ].
  destruct (_convert_value v) as [e | w] eqn:Hv; simpl.
  - exists [], v, vs, []; auto.
  - destruct (map_result _convert_value vs) as [e | ws]; simpl.
    + destruct IH as [pre [a [post [ws [-> [Hpre Ha]]]]]].
      exists (v :: pre), a, post, (w :: ws); simpl; rewrite Hv, Hpre; auto.
    + constructor; [ | exact IH ]; split.
      * exact (convert_value_timestamp _ _ Hv).
      * exact (convert_value_quality _ _ Hv).
Qed.

Lemma map_convert_outcome : forall vs,
  conversion_outcome vs (map_result _convert_value vs).
Proof.
  intros vs; pose proof (map_convert_spec vs) as H; unfold conversion_outcome.
  destruct (map_result _convert_value vs) as [e | ws]; [ | exact H ].
  destruct H as [pre [a [post [ws [Hsplit [Hpre Ha]]]]]].
  exists pre, a, post, ws; repeat split; auto.
  exact (convert_value_error _ _ Ha).
Qed.

Lemma dict_lookup_set : forall {A} (k t : string) (v : A) d,
  dict_lookup t (dict_set k v d) =
  if String.eqb t k then Some v else dict_lookup t d.
Proof.
  intros A k t v d; induction d as [| [k0 v0] d IH]; simpl.
  - reflexivity.
  - destruct (String.eqb k k0) eqn:E; simpl.
    + apply String.eqb_eq in E; subst k0.
      destruct (String.eqb t k); reflexivity.
    + rewrite IH.
      destruct (String.eqb_spec t k0), (String.eqb_spec t k); subst; try reflexivity.
      rewrite String.eqb_refl in E; discriminate.
Qed.

Lemma dict_lookup_in : forall {A} (t : string) (d : list (string * A)),
  In t (map fst d) -> exists v, dict_lookup t d = Some v.
Proof.
  intros A t d; induction d as [| [k v] d IH]; simpl; [ intros [] | intros [-> | H] ].
  - rewrite String.eqb_refl; eauto.
  - destruct (String.eqb t k); eauto.
Qed.

Lemma snapshots_fill_spec : forall ex f tags pts i acc d,
  Forall2 (fun t p => get_point_full ex t = inr p) tags pts ->
  (forall j p, nth_error pts j = Some p -> f (i + j)%nat = CurrentValue p) ->
  NoDup (map fst acc) ->
  (forall t v, dict_lookup t acc = Some v -> snapshot ex t = inr v) ->
  snapshots_fill f i tags acc = inr d ->
  NoDup (map fst d) /\
  (forall t, In t (map fst d) <-> In t (map fst acc) \/ In t tags) /\
  (forall t v, dict_lookup t d = Some v -> snapshot ex t = inr v).
Proof.
  intros ex f tags pts i acc d H2; revert i acc.
  induction H2 as [| t p tags pts Hp H2 IH]; intros i acc Hf Hnd Hacc Hfill; simpl in Hfill.
  - injection Hfill as <-; split; [ exact Hnd | split; [ intros t; simpl; tauto | exact Hacc ] ].
  - apply bind_inr in Hfill; destruct Hfill as [af [Haf Hfill]].
    apply bind_inr in Hfill; destruct Hfill as [v [Hv Hfill]].
    assert (Hsnap : snapshot ex t = inr v).
    { unfold snapshot; rewrite Hp; simpl.
      rewrite <- (Hf O p eq_refl), Nat.add_0_r, Haf; simpl; exact Hv. }
    destruct (IH (S i) (dict_set t v acc)) as [Hnd' [Hkeys Hlook]]; auto.
    + intros j q Hq; rewrite <- (Hf (S j) q Hq); f_equal; lia.
    + apply dict_set_nodup, Hnd.
    + intros t' v' Hl; rewrite dict_lookup_set in Hl.
      destruct (String.eqb_spec t' t); [ subst; injection Hl as <-; exact Hsnap | ].
      exact (Hacc _ _ Hl).
    + split; [ exact Hnd' | split; [ | exact Hlook ] ].
      intros t'; rewrite Hkeys, dict_set_keys; simpl; firstorder congruence.
Qed.

(** If the SDK point list returns each point's current value at its index, a successful [snapshots] call yields a dictionary with one key per distinct requested tag (duplicates collapse), and each tag's entry equals what [snapshot] returns for that tag alone. *)
Theorem snapshots_agree : forall ex tag_names result,
  pointlist_contract ex ->
  snapshots ex tag_names = inr result ->
  NoDup (map fst result) /\
  (forall t, In t (map fst result) <-> In t tag_names) /\
  (forall t, In t tag_names -> exists v, dict_lookup t result = Some v /\ snapshot ex t = inr v).
Proof.
  intros ex tags d Hc Hs; unfold snapshots in Hs.
  apply bind_inr in Hs; destruct Hs as [pts [Hpts Hs]].
  apply bind_inr in Hs; destruct Hs as [f [Hf Hs]].
  destruct (snapshots_fill_spec ex f tags pts 0 [] d) as [Hnd [Hkeys Hlook]].
  - exact (map_result_Forall2 _ _ _ Hpts).
  - intros j p Hj; exact (Hc _ _ Hf j p Hj).
  - constructor.
  - intros t v H; discriminate H.
  - exact Hs.
  - split; [ exact Hnd | split ].
    + intros t; rewrite Hkeys; simpl; tauto.
    + intros t Ht.
      destruct (dict_lookup_in t d) as [v Hv]; [ apply Hkeys; auto | ].
      exists v; split; [ exact Hv | exact (Hlook _ _ Hv) ].
Qed.


(** [recorded_values], [interpolated_values] and [plot_values] either convert every SDK value in order, keeping each value's timestamp and quality, or fail with the error of the first value whose conversion fails; such an error is neither a ValueError nor a TypeError, since those are caught and stringified. *)
Theorem value_lists_conversion :
  (forall ex tag_name start end_ options point time_range af_values,
   let o := match options with Some o => o | None => default_options end in
   get_point ex tag_name = inr point ->
   _create_time_range ex start end_ = inr time_range ->
   RecordedValues point time_range (boundary_map (boundary_type o)) (filter_expression o)
     (include_filtered_values o) (max_count o) = inr af_values ->
   conversion_outcome af_values (recorded_values ex tag_name start end_ options)) /\
  (forall ex tag_name start end_ interval options point time_range time_interval af_values,
   let o := match options with Some o => o | None => default_interpolated_options end in
   get_point_full ex tag_name = inr point ->
   _create_time_range (base_extractor ex) start end_ = inr time_range ->
   AFTimeSpan_Parse ex interval = inr time_interval ->
   InterpolatedValues point time_range time_interval (ivo_filter_expression o)
     (ivo_include_filtered_values o) = inr af_values ->
   conversion_outcome af_values
     (interpolated_values ex tag_name start end_ interval options)) /\
  (forall ex tag_name start end_ intervals point time_range af_values,
   get_point_full ex tag_name = inr point ->
   _create_time_range (base_extractor ex) start end_ = inr time_range ->
   PlotValues point time_range intervals = inr af_values ->
   conversion_outcome af_values (plot_values ex tag_name start end_ intervals)).
Proof.
  split; [ | split ].
  - intros ex tag start end_ options point tr vs o Hp Htr Hvs.
    unfold recorded_values; fold o; rewrite Hp; simpl; rewrite Htr; simpl;
      rewrite Hvs; simpl.
    apply map_convert_outcome.
  - intros ex tag start end_ interval options point tr ti vs o Hp Htr Hti Hvs.
    unfold interpolated_values; fold o; rewrite Hp; simpl; rewrite Htr; simpl;
      rewrite Hti; simpl; rewrite Hvs; simpl.
    apply map_convert_outcome.
  - intros ex tag start end_ intervals point tr vs Hp Htr Hvs.
    unfold plot_values; rewrite Hp; simpl; rewrite Htr; simpl; rewrite Hvs; simpl.
    apply map_convert_outcome.
Qed.

Lemma get_summary_name_eq : forall v, _get_summary_name v = summary_name v.
Proof. reflexivity. Qed.

Lemma str_of_Z_not_timestamp : forall z, str_of_Z z <> "timestamp".
Proof.
  intros z; unfold str_of_Z; destruct (Z.to_int z) as [d | d]; destruct d; discriminate.
Qed.

Lemma summary_name_not_timestamp : forall v, summary_name v <> "timestamp".
Proof.
  intros v; unfold summary_name; simpl.
  repeat match goal with
         | |- context [Z.eqb v ?k] => destruct (Z.eqb v k); [ discriminate | ]
         end.
  apply str_of_Z_not_timestamp.
Qed.

Lemma to_int_not_nil : forall z, Z.to_int z <> Decimal.Pos Decimal.Nil /\
                                 Z.to_int z <> Decimal.Neg Decimal.Nil.
Proof.
  intros z; split; intros H; pose proof (DecimalZ.of_to z) as E; rewrite H in E;
    simpl in E; subst z; discriminate H.
Qed.

Lemma summary_name_decode_correct : forall v,
  summary_name_decode (summary_name v) = Some v.
Proof.
  intros v; unfold summary_name.
  destruct (zmap_lookup v summary_name_map) as [n |] eqn:Hl.
  - simpl in Hl.
    repeat match type of Hl with
           | context [Z.eqb v ?k] =>
               destruct (Z.eqb_spec v k); [ subst v; injection Hl as <-; reflexivity | ]
           end.
    discriminate Hl.
  - unfold summary_name_decode.
    assert (Hf : find (fun kv => String.eqb (snd kv) (str_of_Z v)) summary_name_map = None).
    { unfold str_of_Z; destruct (Z.to_int v) as [d | d]; destruct d; reflexivity. }
    rewrite Hf; unfold str_of_Z.
    destruct (to_int_not_nil v) as [H1 H2].
    rewrite NilZero.isi by assumption; simpl; rewrite DecimalZ.of_to; reflexivity.
Qed.

Lemma summary_name_inj : forall a b, summary_name a = summary_name b -> a = b.
Proof.
  intros a b H.
  pose proof (summary_name_decode_correct a) as Ha.
  rewrite H, summary_name_decode_correct in Ha; injection Ha as ->; reflexivity.
Qed.

(** ** Theorems: summary names *)

(** [_get_summary_name] maps distinct summary-type codes to distinct names, agrees with the name map that [summary] inlines (a known code gets its name, any other code its decimal string), and never yields [timestamp], so a summary never overwrites the timestamp column of [summaries]. *)
Theorem summary_names_distinct :
  (forall a b, _get_summary_name a = _get_summary_name b -> a = b) /\
  (forall v, _get_summary_name v = summary_name v /\ _get_summary_name v <> "timestamp").
Proof.
  split.
  - intros a b H; rewrite !get_summary_name_eq in H; exact (summary_name_inj a b H).
  - intros v; rewrite get_summary_name_eq; split; [ reflexivity | ].
    apply summary_name_not_timestamp.
Qed.


Lemma interval_fold_timestamp : forall sums x acc,
  fold_left (fun r s => dict_set (_get_summary_name (SummaryTypeOf s)) (SummaryValue s) r)
    sums (("timestamp", x) :: acc) =
  ("timestamp", x) ::
  fold_left (fun r s => dict_set (summary_name (SummaryTypeOf s)) (SummaryValue s) r) sums acc.
Proof.
  induction sums as [| s sums IH]; intros x acc; simpl; [ reflexivity | ].
  rewrite get_summary_name_eq.
  destruct (String.eqb_spec (summary_name (SummaryTypeOf s)) "timestamp") as [E | _];
    [ exfalso; exact (summary_name_not_timestamp _ E) | ].
  apply IH.
Qed.

Lemma interval_results_summary_result : forall entry,
  interval_results entry =
  ("timestamp", PInt (LocalTime (IntervalKey entry))) :: summary_result (IntervalSummaries entry).
Proof. intros entry; unfold interval_results, summary_result; apply interval_fold_timestamp. Qed.

(** A successful [summaries] call returns one row per interval reported by the SDK, in the SDK's order; each row is the interval's summaries keyed by summary name, with the key [timestamp] set to the interval's local time. *)
Theorem summaries_intervals : forall ex tag_name start end_ interval summary_types results,
  summaries ex tag_name start end_ interval summary_types = inr results ->
  exists point time_range time_interval sums,
    get_point_full ex tag_name = inr point /\
    _create_time_range (base_extractor ex) start end_ = inr time_range /\
    AFTimeSpan_Parse ex interval = inr time_interval /\
    Summaries point time_range time_interval (sdk_summary_of summary_types)
      TimeWeighted Auto = inr sums /\
    results = map (fun entry => ("timestamp", PInt (LocalTime (IntervalKey entry))) ::
                                summary_result (IntervalSummaries entry)) sums.
Proof.
  intros ex tag start end_ interval sts res H; unfold summaries in H.
  apply bind_inr in H; destruct H as [p [Hp H]].
  apply bind_inr in H; destruct H as [tr [Htr H]].
  apply bind_inr in H; destruct H as [ti [Hti H]].
  apply bind_inr in H; destruct H as [sums [Hsums H]].
  injection H as <-.
  exists p, tr, ti, sums; repeat split; auto.
  apply map_ext, interval_results_summary_result.
Qed.

Lemma hd_error_rev_cons : forall {A} (x : A) l,
  hd_error (rev (x :: l)) = match hd_error (rev l) with Some y => Some y | None => Some x end.
Proof.
  intros A x l; simpl; destruct (rev l) as [| y r]; reflexivity.
Qed.

Lemma summary_fold_lookup : forall sums acc t,
  dict_lookup (summary_name t)
    (fold_left (fun r s => dict_set (summary_name (SummaryTypeOf s)) (SummaryValue s) r) sums acc) =
  match hd_error (rev (filter (fun s => Z.eqb (SummaryTypeOf s) t) sums)) with
  | Some s => Some (SummaryValue s)
  | None => dict_lookup (summary_name t) acc
  end.
Proof.
  induction sums as [| s sums IH] using rev_ind; intros acc t; simpl; [ reflexivity | ].
  rewrite fold_left_app; simpl.
  rewrite dict_lookup_set, filter_app; simpl.
  destruct (String.eqb_spec (summary_name t) (summary_name (SummaryTypeOf s))) as [E | E].
  - apply summary_name_inj in E; subst t; rewrite Z.eqb_refl.
    rewrite rev_app_distr; reflexivity.
  - assert (Hne : Z.eqb (SummaryTypeOf s) t = false)
      by (apply Z.eqb_neq; intros Heq; apply E; rewrite Heq; reflexivity).
    rewrite Hne, app_nil_r; apply IH.
Qed.

(** A successful [summary] call returns a dictionary with distinct keys, exactly the names of the summary types the SDK reported; when the SDK reports one type more than once, the value stored under its name is the last one reported. *)
Theorem summary_last_wins : forall ex tag_name start end_ summary_types result,
  summary ex tag_name start end_ summary_types = inr result ->
  exists point time_range sums,
    get_point ex tag_name = inr point /\
    _create_time_range ex start end_ = inr time_range /\
    Summary point time_range (sdk_summary_of summary_types) TimeWeighted Auto = inr sums /\
    NoDup (map fst result) /\
    (forall k, In k (map fst result) <->
               exists s, In s sums /\ k = summary_name (SummaryTypeOf s)) /\
    (forall t, dict_lookup (summary_name t) result =
               option_map SummaryValue
                 (hd_error (rev (filter (fun s => Z.eqb (SummaryTypeOf s) t) sums)))).
Proof.
  intros ex tag start end_ sts res H; unfold summary in H.
  apply bind_inr in H; destruct H as [p [Hp H]].
  apply bind_inr in H; destruct H as [tr [Htr H]].
  apply bind_inr in H; destruct H as [sums [Hsums H]].
  injection H as <-.
  exists p, tr, sums; repeat split; auto.
  - apply summary_result_nodup; constructor.
  - intros Hk; unfold summary_result in Hk; apply summary_result_keys in Hk.
    destruct Hk as [[] | Hk]; apply in_map_iff in Hk; destruct Hk as [s [<- Hs]]; eauto.
  - intros [s [Hs ->]]; unfold summary_result; apply summary_result_keys; right.
    apply in_map_iff; exists s; split; [ reflexivity | exact Hs ].
  - intros t; unfold summary_result; rewrite summary_fold_lookup.
    destruct (hd_error _); reflexivity.
Qed.

Lemma fold_lor_testbit : forall sts acc n,
  Z.testbit (fold_left (fun acc st => Z.lor acc (SummaryType_value st)) sts acc) n =
  Z.testbit acc n || existsb (fun st => Z.testbit (SummaryType_value st) n) sts.
Proof.
  induction sts as [| st sts IH]; intros acc n; simpl.
  - rewrite orb_false_r; reflexivity.
  - rewrite IH, Z.lor_spec, orb_assoc; reflexivity.
Qed.

Lemma sdk_summary_of_testbit : forall sts n,
  Z.testbit (sdk_summary_of sts) n =
  existsb (fun st => Z.testbit (SummaryType_value st) n) (requested sts).
Proof.
  intros [st | sts] n; simpl.
  - rewrite orb_false_r; reflexivity.
  - rewrite fold_lor_testbit, Z.testbit_0_l; reflexivity.
Qed.

Lemma existsb_same_elements : forall {A} (f : A -> bool) l1 l2,
  (forall x, In x l1 <-> In x l2) -> existsb f l1 = existsb f l2.
Proof.
  intros A f l1 l2 H.
  destruct (existsb f l1) eqn:E1, (existsb f l2) eqn:E2; try reflexivity.
  - apply existsb_exists in E1; destruct E1 as [x [Hx Hf]].
    assert (existsb f l2 = true) by (apply existsb_exists; exists x; split; [ apply H | ]; auto).
    congruence.
  - apply existsb_exists in E2; destruct E2 as [x [Hx Hf]].
    assert (existsb f l1 = true) by (apply existsb_exists; exists x; split; [ apply H | ]; auto).
    congruence.
Qed.

(** [summary] and [summaries] depend only on the set of requested summary types: requests with the same types, in any order and with any repetition, build the same SDK mask and give the same result. *)
Theorem summary_types_as_set : forall ex exf tag_name start end_ interval a b,
  (forall st, In st (requested a) <-> In st (requested b)) ->
  sdk_summary_of a = sdk_summary_of b /\
  summary ex tag_name start end_ a = summary ex tag_name start end_ b /\
  summaries exf tag_name start end_ interval a = summaries exf tag_name start end_ interval b.
Proof.
  intros ex exf tag start end_ interval a b H.
  assert (E : sdk_summary_of a = sdk_summary_of b).
  { apply Z.bits_inj'; intros n _.
    rewrite !sdk_summary_of_testbit; apply existsb_same_elements, H. }
  split; [ exact E | split ].
  - unfold summary; rewrite E; reflexivity.
  - unfold summaries; rewrite E; reflexivity.
Qed.

(** [get_point_config] names the configuration after the requested tag and fills its default for every attribute the SDK does not report: point id 0, empty description and units, zero 0, span 100 and display digits -5; a falsy typical value becomes None, a truthy one is converted to a float. *)
Theorem get_point_config_defaults : forall `{PyBuiltins} ex tag_name p attrs cfg,
  get_point ex tag_name = inr p ->
  GetAttributes p point_attribute_names = inr attrs ->
  get_point_config ex tag_name = inr cfg ->
  dc_getattr cfg "name" = inr (PStr tag_name) /\
  (dict_lookup "pointid" attrs = None -> dc_getattr cfg "point_id" = inr (PInt 0)) /\
  (dict_lookup "descriptor" attrs = None -> dc_getattr cfg "description" = inr (PStr "")) /\
  (dict_lookup "engunits" attrs = None ->
     dc_getattr cfg "engineering_units" = inr (PStr "")) /\
  (dict_lookup "zero" attrs = None -> dc_getattr cfg "zero" = inr (PFloat 0)) /\
  (dict_lookup "span" attrs = None -> dc_getattr cfg "span" = inr (PFloat 100)) /\
  (dict_lookup "displaydigits" attrs = None ->
     dc_getattr cfg "display_digits" = inr (PInt (-5))) /\
  (py_truthy (dict_get attrs "typicalvalue" PNone) = false ->
     dc_getattr cfg "typical_value" = inr PNone) /\
  (forall v, dict_lookup "typicalvalue" attrs = Some v -> py_truthy v = true ->
     exists q, py_float v = inr q /\ dc_getattr cfg "typical_value" = inr (PFloat q)).
Proof.
  intros B ex tag p attrs cfg Hp Ha Hc.
  unfold get_point_config in Hc; rewrite Hp in Hc; simpl in Hc.
  rewrite Ha in Hc; simpl in Hc.
  apply bind_inr in Hc; destruct Hc as [pid [Hpid Hc]].
  apply bind_inr in Hc; destruct Hc as [zero [Hzero Hc]].
  apply bind_inr in Hc; destruct Hc as [span [Hspan Hc]].
  apply bind_inr in Hc; destruct Hc as [dd [Hdd Hc]].
  apply bind_inr in Hc; destruct Hc as [tv [Htv Hc]].
  cbn in Hc; injection Hc as <-.
  repeat split.
  - intros Hn; unfold dict_get in Hpid; rewrite Hn in Hpid; simpl in Hpid.
    injection Hpid as <-; reflexivity.
  - intros Hn; unfold dict_get; rewrite Hn; reflexivity.
  - intros Hn; unfold dict_get; rewrite Hn; reflexivity.
  - intros Hn; unfold dict_get in Hzero; rewrite Hn in Hzero; simpl in Hzero.
    injection Hzero as <-; reflexivity.
  - intros Hn; unfold dict_get in Hspan; rewrite Hn in Hspan; simpl in Hspan.
    injection Hspan as <-; reflexivity.
  - intros Hn; unfold dict_get in Hdd; rewrite Hn in Hdd; simpl in Hdd.
    injection Hdd as <-; reflexivity.
  - intros Hf; rewrite Hf in Htv; injection Htv as <-; reflexivity.
  - intros v Hv Ht.
    assert (Hg : dict_get attrs "typicalvalue" PNone = v) by (unfold dict_get; rewrite Hv; reflexivity).
    rewrite Hg, Ht in Htv.
    apply bind_inr in Htv; destruct Htv as [q [Hq Htv]]; injection Htv as <-.
    exists q; split; [ exact Hq | reflexivity ].
Qed.

(** ** Witnesses *)

Lemma extract_plant_name_four_witness :
  extract_plant_name ("\\" ++ "GENCOPI" ++ "\" ++ "Plants" ++ "\" ++ "Hydro" ++ "\" ++
                      "Dam1" ++ "\Unit2") = Some "Dam1".
Proof.
  apply extract_plant_name_four; [ discriminate | discriminate | | ].
  - repeat (apply Forall_cons; [ reflexivity | ]); apply Forall_nil.
  - right; exists "Unit2"; reflexivity.
Defined.

Lemma extract_plant_name_three_witness :
  extract_plant_name ("\\" ++ "GENCOPI" ++ "\" ++ "Plants" ++ "\" ++ "Hydro") = Some "Hydro".
Proof.
  apply extract_plant_name_three; [ discriminate | discriminate | ].
  repeat (apply Forall_cons; [ reflexivity | ]); apply Forall_nil.
Defined.

Lemma extract_plant_name_no_backslash_witness :
  extract_plant_name "\\GENCOPI\Plants\Hydro\Dam1\" = Some "Dam1" /\
  str_contains "\" "Dam1" = false.
Proof.
  split; [ vm_compute; reflexivity | ].
  apply (extract_plant_name_no_backslash "\\GENCOPI\Plants\Hydro\Dam1\").
  vm_compute; reflexivity.
Defined.

Lemma event_frame_template_name_no_semicolon_witness :
  event_frame_template_name (Some "TRIGGER;EFTNAME=Trip;X=1") = Some "Trip" /\
  str_contains ";" "Trip" = false.
Proof.
  split; [ vm_compute; reflexivity | ].
  apply (event_frame_template_name_no_semicolon (Some "TRIGGER;EFTNAME=Trip;X=1")).
  vm_compute; reflexivity.
Defined.

Lemma value_lists_conversion_witness :
  conversion_outcome [af_sample 10 (3 # 2)]
    (recorded_values one_event_extractor "SINUSOID" (TStr "*-1d") (TStr "*") None) /\
  conversion_outcome [af_sample 10 (3 # 2); af_sample 20 2]
    (interpolated_values sample_full_extractor "SINUSOID" (TStr "*-1d") (TStr "*") "1h" None) /\
  conversion_outcome [af_sample 10 (3 # 2)]
    (plot_values sample_full_extractor "SINUSOID" (TStr "*-1d") (TStr "*") 640).
Proof.
  destruct value_lists_conversion as [Hr [Hi Hp]].
  split; [ | split ].
  - exact (Hr one_event_extractor "SINUSOID" (TStr "*-1d") (TStr "*") None one_event_point
             (mkAFTimeRange 0 0) _ eq_refl eq_refl eq_refl).
  - exact (Hi sample_full_extractor "SINUSOID" (TStr "*-1d") (TStr "*") "1h" None
             sample_full_point (mkAFTimeRange 0 0) 36000000000 _ eq_refl eq_refl eq_refl eq_refl).
  - exact (Hp sample_full_extractor "SINUSOID" (TStr "*-1d") (TStr "*") 640
             sample_full_point (mkAFTimeRange 0 0) _ eq_refl eq_refl eq_refl).
Defined.

Lemma snapshots_agree_witness :
  exists result,
    snapshots sample_full_extractor ["SINUSOID"; "CDT158"; "SINUSOID"] = inr result /\
    map fst result = ["SINUSOID"; "CDT158"] /\
    (forall t, In t ["SINUSOID"; "CDT158"; "SINUSOID"] ->
       exists v, dict_lookup t result = Some v /\ snapshot sample_full_extractor t = inr v).
Proof.
  eexists; split; [ reflexivity | split; [ reflexivity | ] ].
  refine (proj2 (proj2 (snapshots_agree sample_full_extractor
            ["SINUSOID"; "CDT158"; "SINUSOID"] _ _ eq_refl))).
  intros points af H i p Hi; simpl in H; injection H as <-; rewrite Hi; reflexivity.
Defined.

Lemma summaries_intervals_witness :
  exists results,
    summaries sample_full_extractor "SINUSOID" (TStr "*-1d") (TStr "*") "1h"
      (SummaryList [AVERAGE; MINIMUM]) = inr results /\
    exists point time_range time_interval sums,
      Summaries point time_range time_interval (sdk_summary_of (SummaryList [AVERAGE; MINIMUM]))
        TimeWeighted Auto = inr sums /\
      results = map (fun entry => ("timestamp", PInt (LocalTime (IntervalKey entry))) ::
                                  summary_result (IntervalSummaries entry)) sums.
Proof.
  eexists; split; [ reflexivity | ].
  destruct (summaries_intervals sample_full_extractor "SINUSOID" (TStr "*-1d") (TStr "*") "1h"
              (SummaryList [AVERAGE; MINIMUM]) _ eq_refl)
    as [p [tr [ti [sums [_ [_ [_ [Hs Hr]]]]]]]].
  exists p, tr, ti, sums; split; [ exact Hs | exact Hr ].
Defined.

Lemma summary_last_wins_witness :
  exists result,
    summary dup_summary_extractor "SINUSOID" (TStr "*-1d") (TStr "*") (OneSummary AVERAGE)
      = inr result /\
    dict_lookup "average" result = Some (PFloat 3).
Proof.
  eexists; split; [ reflexivity | ].
  destruct (summary_last_wins dup_summary_extractor "SINUSOID" (TStr "*-1d") (TStr "*")
              (OneSummary AVERAGE) _ eq_refl)
    as [p [tr [sums [Hp [_ [Hs [_ [_ Hl]]]]]]]].
  simpl in Hp; injection Hp as <-; simpl in Hs; injection Hs as <-.
  change "average" with (summary_name 2); rewrite Hl; reflexivity.
Defined.

Lemma summary_names_distinct_witness :
  _get_summary_name 3 = _get_summary_name 3 /\ (3 = 3)%Z /\
  _get_summary_name 3 <> "timestamp".
Proof.
  split; [ reflexivity | split ].
  - apply (proj1 summary_names_distinct); reflexivity.
  - apply (proj2 summary_names_distinct 3).
Defined.

Lemma summary_types_as_set_witness :
  sdk_summary_of (OneSummary AVERAGE) = sdk_summary_of (SummaryList [AVERAGE; AVERAGE]) /\
  summary exact_summary_extractor "SINUSOID" (TStr "*-1d") (TStr "*") (OneSummary AVERAGE) =
  summary exact_summary_extractor "SINUSOID" (TStr "*-1d") (TStr "*")
    (SummaryList [AVERAGE; AVERAGE]) /\
  summaries sample_full_extractor "SINUSOID" (TStr "*-1d") (TStr "*") "1h" (OneSummary AVERAGE) =
  summaries sample_full_extractor "SINUSOID" (TStr "*-1d") (TStr "*") "1h"
    (SummaryList [AVERAGE; AVERAGE]).
Proof. apply summary_types_as_set; intros st; simpl; tauto. Defined.

Lemma get_point_config_defaults_witness :
  exists cfg, get_point_config odd_type_extractor "T1" = inr cfg /\
    dc_getattr cfg "description" = inr (PStr "") /\
    dc_getattr cfg "span" = inr (PFloat 100) /\
    dc_getattr cfg "typical_value" = inr PNone.
Proof.
  eexists; split; [ reflexivity | ].
  destruct (get_point_config_defaults odd_type_extractor "T1" odd_type_point
              [("pointid", PInt 12); ("pointtype", PStr "Float128")] _
              eq_refl eq_refl eq_refl) as [_ [_ [Hd [_ [_ [Hs [_ [Ht _]]]]]]]].
  split; [ apply Hd; reflexivity | split; [ apply Hs; reflexivity | apply Ht; reflexivity ] ].
Defined.
